(** * The breadth-first web spider of [scripts/spiders/web_spider_oo.py]

    A shallow embedding of the [WebSpider] class: the link filter
    ([clean_webpage_links]), the file naming and persistence functions, the
    indexing data frames and the scheduler ([run_spider]), followed by the
    properties of the crawl that the specification states.

    Python strings are modelled as [string] (8-bit characters), [None] or a
    string as [option string], Python sets of links as [gset], the local
    directory as a [gmap] from paths to contents.  The collaborators of the
    spider (the HTTP session, the HTML parser, [hashlib.md5], the iteration
    order of a Python set) are the fields of an environment record [Env]. *)

From Stdlib Require Import ZArith Ascii String List.
From stdpp Require Import base option list sets gmap strings.

Local Open Scope Z_scope.
Set Warnings "-clear-no-such-hyp".

(** ** Python string operations used by the spider *)

Module PyStr.

(** [str.lower], on the ASCII letters. *)
Definition lower_ascii (a : ascii) : ascii :=
  let n := N_of_ascii a in
  if ((65 <=? n) && (n <=? 90))%N then ascii_of_N (n + 32) else a.

Fixpoint lower (s : string) : string :=
  match s with
  | EmptyString => EmptyString
  | String a s' => String (lower_ascii a) (lower s')
  end.

(** [s.startswith(p)] *)
Fixpoint startswith (s p : string) {struct p} : bool :=
  match p, s with
  | EmptyString, _ => true
  | String _ _, EmptyString => false
  | String b p', String a s' => if decide (a = b) then startswith s' p' else false
  end.

(** [w in s] for two strings: [w] occurs in [s] as a contiguous block. *)
Fixpoint contains (s w : string) : bool :=
  startswith s w ||
  match s with
  | EmptyString => false
  | String _ s' => contains s' w
  end.

(** [s.endswith(suf)]: some tail of [s] is [suf]. *)
Fixpoint endswith (s suf : string) : bool :=
  if decide (s = suf) then true
  else match s with
       | EmptyString => false
       | String _ s' => endswith s' suf
       end.

(** [s.replace(old, new)] for one-character [old] and [new]. *)
Fixpoint replace (old new : ascii) (s : string) : string :=
  match s with
  | EmptyString => EmptyString
  | String a s' => String (if decide (a = old) then new else a) (replace old new s')
  end.

(** The newline character written by [file.write(... + "\n")]. *)
Definition newline : string := String (ascii_of_nat 10) EmptyString.

(** The last character of a string, [None] for the empty one. *)
Fixpoint last_char (s : string) : option ascii :=
  match s with
  | EmptyString => None
  | String a EmptyString => Some a
  | String _ s' => last_char s'
  end.

End PyStr.

(** ** Exceptions

    The exceptions raised by the statements of the spider itself.
    [RequestException] stands for whatever [session.get] raises, of any class
    (the exceptions of [requests] for a malformed URL are also [ValueError]s in
    Python; here they are [RequestException]).  Opening and writing a file and
    the calls to the sink ([to_sql], [dispose]) are taken to succeed: an
    [OSError] of [open] or a database error is not modelled, and the properties
    below are about runs in which these calls succeed. *)

Inductive exn : Type :=
| TypeError        (* [word in None] *)
| AttributeError   (* an attribute that was never bound *)
| ValueError       (* the two flag checks of the class *)
| RequestException (* any failure raised by [session.get] *).

Inductive except (A : Type) : Type :=
| Ok (a : A)
| Raise (e : exn).
Arguments Ok {A} a.
Arguments Raise {A} e.

Global Instance exn_eq_dec : EqDecision exn.
Proof. solve_decision. Defined.

(** ** The link filter: [WebSpider.clean_webpage_links] *)

(** An [href] returned by [link.get("href")] is [None] or a string. *)
Definition candidate : Type := option string.

(** [itertools.product(xs, ys)]: the pairs in the order of a nested loop,
    [xs] outermost. *)
Definition product {A B : Type} (xs : list A) (ys : list B) : list (A * B) :=
  x ← xs; (λ y, (x, y)) <$> ys.

(** [word not in link]: a [TypeError] when [link] is [None]. *)
Definition str_not_in (word : string) (link : candidate) : except bool :=
  match link with
  | None => Raise TypeError
  | Some s => Ok (negb (PyStr.contains s word))
  end.

(** [link not in (None, "/")] *)
Definition not_in_none_slash (link : candidate) : bool :=
  match link with
  | None => false
  | Some s => if decide (s = "/") then false else true
  end.

(** The loop of [clean_webpage_links] over the pairs, with the list
    [clean_links] built so far.  The left operand of [and] is evaluated
    first, so a [None] link raises before the second test is reached. *)
Fixpoint clean_loop (pairs : list (candidate * string)) (clean_links : list candidate)
  : except (list candidate) :=
  match pairs with
  | [] => Ok clean_links
  | link_tuples :: rest =>
      match str_not_in link_tuples.2 link_tuples.1 with
      | Raise e => Raise e
      | Ok b =>
          if b && not_in_none_slash link_tuples.1
          then clean_loop rest (clean_links ++ [link_tuples.1])
          else clean_loop rest clean_links
      end
  end.

Definition clean_webpage_links (filter_word_list : list string) (links_list : list candidate)
  : except (gset candidate) :=
  match clean_loop (product links_list filter_word_list) [] with
  | Ok clean_links => Ok (list_to_set clean_links)
  | Raise e => Raise e
  end.

(** The test of the loop body on a string candidate. *)
Definition kept_by (word : string) (link : candidate) : Prop :=
  ∃ s, link = Some s ∧ s ≠ "/" ∧ PyStr.contains s word = false.

(** The list bound by [bind_filter_word_list]. *)
Definition default_filter_word_list : list string :=
  ["career"; "login"; "pay"; "your"; "account"; "auth"; "contact"; "activate";
   "reservation"; "book"; "tel"; "facebook"; "instagram"; "subscribe"; "google";
   "linkedin"; "youtube"; "mail"; "app"; "App"].


(** ** The collaborators and the state of a run *)

(** The part of a [requests.Response] the spider reads. *)
Record Response : Type := mkResponse {
  status_code : Z;
  text : string;
  content : string
}.

(** An [<a>] tag found by [soup.find_all("a")]; [link.get("href")] reads
    its [href] attribute, [None] when the tag has none. *)
Record Anchor : Type := mkAnchor { href : candidate }.

(** The table names of [SpiderIndexSQLSetup] that [upload_data_to_sql]
    reads; the engine itself is the relational sink the events go to. *)
Record SpiderIndexSQLSetup : Type := mkSetup {
  db_index_schema : string;
  db_index_table_name : string;
  unique_links_schema : string;
  unique_links_table_name : string
}.

(** The two data frames of the class, with their rows. *)
Inductive DataFrame : Type :=
| ParentChildDF (rows : list (Z * string * string))
    (* columns pen_depth, parent_link, child_link *)
| UniqueLinksDF (rows : list (nat * string))
    (* columns link_id, link_name *).

(** The calls a run makes to the HTTP session and to the relational sink. *)
Inductive Event : Type :=
| EvGet (link : string)                              (* [session.get(link, ...)] *)
| EvToSql (name schema : string) (data_df : DataFrame) (* [data_df.to_sql(...)] *)
| EvDispose                                          (* [sql_engine.dispose()] *).

(** What the spider does not define itself. [session_get] is [None] when
    the request raises; [set_iter] is the order in which a Python set is
    iterated. *)
Record Env : Type := mkEnv {
  session_get : string → option Response;
  find_all_a : string → list Anchor;
  md5_hexdigest : string → string;
  set_iter : gset string → list string
}.

(** A Python set is iterated element by element, each element once. *)
Definition iter_ok (env : Env) : Prop :=
  ∀ X : gset string, set_iter env X ≡ₚ elements X.

(** The attributes of a [WebSpider] instance.  [indexing_definitions_obj]
    is [None] when the attribute was never bound. *)
Record WebSpider : Type := mkSpider {
  root_site : string;
  pen_depth : Z;
  raw_files_save_path : string;
  indexing_definitions_obj : option SpiderIndexSQLSetup;
  indexing_on : bool;
  unique_links_set : gset string;
  filter_word_list : list string
}.

(** The instance and the local directory it writes to. *)
Record World : Type := mkWorld {
  self : WebSpider;
  files : gmap string string
}.

(** [WebSpider.__init__] (the argument is typed, so the [isinstance]
    check cannot fail). *)
Definition init (root_site : string) (pen_depth : Z) (raw_files_save_path : string)
    (indexing_definitions_obj : option SpiderIndexSQLSetup) : WebSpider :=
  {| root_site := root_site;
     pen_depth := pen_depth;
     raw_files_save_path := raw_files_save_path;
     indexing_definitions_obj := indexing_definitions_obj;
     indexing_on := match indexing_definitions_obj with Some _ => true | None => false end;
     unique_links_set := ∅;
     filter_word_list := default_filter_word_list |}.

(** ** A state, trace and exception monad for the methods *)

Record Res (A : Type) : Type := mkRes {
  res_val : except A;
  res_world : World;
  res_events : list Event
}.
Arguments mkRes {A} _ _ _.
Arguments res_val {A} _.
Arguments res_world {A} _.
Arguments res_events {A} _.

Definition M (A : Type) : Type := World → Res A.

Definition ret {A : Type} (a : A) : M A := λ w, mkRes (Ok a) w [].

Definition raise {A : Type} (e : exn) : M A := λ w, mkRes (Raise e) w [].

(** The result [r] of a continuation, after the events [evs] of what ran
    before it. *)
Definition after {A : Type} (evs : list Event) (r : Res A) : Res A :=
  mkRes (res_val r) (res_world r) (evs ++ res_events r).

Definition bind {A B : Type} (m : M A) (k : A → M B) : M B := λ w,
  let r := m w in
  match res_val r with
  | Ok a => after (res_events r) (k a (res_world r))
  | Raise e => mkRes (Raise e) (res_world r) (res_events r)
  end.

Notation "'let*' x ':=' m 'in' k" := (bind m (λ x, k))
  (at level 10, x binder, m at level 100, k at level 200).
Notation "m '>>' k" := (bind m (λ _, k))
  (at level 100, k at level 200, right associativity).

Definition lift {A : Type} (r : except A) : M A :=
  match r with Ok a => ret a | Raise e => raise e end.

Definition emit (e : Event) : M unit := λ w, mkRes (Ok tt) w [e].

Definition get_self : M WebSpider := λ w, mkRes (Ok (self w)) w [].

Definition modify (f : World → World) : M unit := λ w, mkRes (Ok tt) (f w) [].

(** A [for] loop with a local variable [a] updated by the body. *)
Fixpoint foldM {A B : Type} (body : A → B → M A) (a : A) (xs : list B) : M A :=
  match xs with
  | [] => ret a
  | x :: xs' => let* a' := body a x in foldM body a' xs'
  end.

(** The instance after [unique_links_set.add(link)]: no other attribute
    changes. *)
Definition visit (link : string) (sp : WebSpider) : WebSpider :=
  {| root_site := root_site sp;
     pen_depth := pen_depth sp;
     raw_files_save_path := raw_files_save_path sp;
     indexing_definitions_obj := indexing_definitions_obj sp;
     indexing_on := indexing_on sp;
     unique_links_set := {[link]} ∪ unique_links_set sp;
     filter_word_list := filter_word_list sp |}.

(** ** The methods of [WebSpider] *)

Section Methods.

Variable env : Env.

(** [get_request_with_delay]: the random sleep has no effect on the
    state; the request is made and its failure propagates. *)
Definition get_request_with_delay (parent_link : string) : M Response :=
  emit (EvGet parent_link) >>
  match session_get env parent_link with
  | Some r => ret r
  | None => raise RequestException
  end.

(** [get_all_links_from_page] *)
Definition get_all_links_from_page (returned_request : Response) : list candidate :=
  foldl (λ links_list link, links_list ++ [href link]) []
        (find_all_a env (content returned_request)).

(** [generate_output_file_name] *)
Definition generate_output_file_name (sp : WebSpider) (webpage file_type_flag : string)
  : except string :=
  if bool_decide (PyStr.lower file_type_flag ∈ ["pdf"; "txt"])
  then
    let cleaned_root := PyStr.replace "/" "_" (PyStr.replace "\" "_" (root_site sp)) in
    let unique_url_hash := md5_hexdigest env (root_site sp +:+ webpage) in
    Ok (cleaned_root +:+ unique_url_hash +:+ "." +:+ PyStr.lower file_type_flag)
  else Raise ValueError.

(** [open(path, 'a')] keeps what the file holds and creates it when it
    is missing; [open(path, 'wb')] empties it. *)
Definition open_append (path : string) : M unit :=
  modify (λ w, mkWorld (self w) (<[path := default "" (files w !! path)]> (files w))).

Definition open_truncate (path : string) : M unit :=
  modify (λ w, mkWorld (self w) (<[path := ""]> (files w))).

(** [file.write(data)] on the file opened at [path]. *)
Definition file_write (path data : string) : M unit :=
  modify (λ w, mkWorld (self w)
                 (<[path := default "" (files w !! path) +:+ data]> (files w))).

(** [save_webpage_as_text] *)
Definition save_webpage_as_text (web_url : string) (returned_request : Response) : M unit :=
  let* sp := get_self in
  let* save_name := lift (generate_output_file_name sp web_url "txt") in
  let path := raw_files_save_path sp +:+ save_name +:+ ".txt" in
  open_append path >>
  file_write path ("root_site:" +:+ root_site sp +:+ PyStr.newline) >>
  file_write path ("web_url:" +:+ web_url +:+ PyStr.newline) >>
  file_write path (text returned_request).

(** [save_webpage_as_pdf] *)
Definition save_webpage_as_pdf (web_url : string) (returned_request : Response) : M unit :=
  let* sp := get_self in
  let* save_name := lift (generate_output_file_name sp web_url "pdf") in
  let path := raw_files_save_path sp +:+ save_name +:+ ".pdf" in
  open_truncate path >>
  file_write path (content returned_request).

(** [create_parent_child_dataframe] *)
Definition create_parent_child_dataframe (sp : WebSpider) (parent_link : string)
    (child_links : gset string) : DataFrame :=
  ParentChildDF
    (product (product [pen_depth sp] [parent_link]) (set_iter env child_links)).

(** [create_unique_links_df]; [enumerate] numbers the links from 0. *)
Definition create_unique_links_df (sp : WebSpider) : DataFrame :=
  UniqueLinksDF (imap (λ i link, (i, link)) (set_iter env (unique_links_set sp))).

(** [upload_data_to_sql] *)
Definition upload_data_to_sql (data_df : DataFrame) (flag : string) : M unit :=
  let* sp := get_self in
  if decide (flag = "index") then
    match indexing_definitions_obj sp with
    | None => raise AttributeError
    | Some obj => emit (EvToSql (db_index_table_name obj) (db_index_schema obj) data_df)
    end
  else if decide (flag = "unique_links") then
    match indexing_definitions_obj sp with
    | None => raise AttributeError
    | Some obj =>
        emit (EvToSql (unique_links_table_name obj) (unique_links_schema obj) data_df)
    end
  else raise ValueError.

(** [self.unique_links_set.add(parent_link)] *)
Definition unique_links_add (parent_link : string) : M unit :=
  modify (λ w, mkWorld (visit parent_link (self w)) (files w)).

(** The strings of a set of candidates, as [set.update] adds them to a
    set of links. *)
Definition links_of (cleaned : gset candidate) : gset string :=
  set_omap (λ c : candidate, c) cleaned.

(** The body of the inner loop of [run_spider] from the link
    extraction on, reached for a saved text page or PDF. *)
Definition extract_and_index (child_level_links : gset string) (parent_link : string)
    (site_request : Response) : M (gset string) :=
  let* sp := get_self in
  let raw_child_links := get_all_links_from_page site_request in
  let* cleaned_child_links := lift (clean_webpage_links (filter_word_list sp) raw_child_links) in
  let child_level_links := child_level_links ∪ links_of cleaned_child_links in
  (if indexing_on sp
   then upload_data_to_sql
          (create_parent_child_dataframe sp parent_link child_level_links) "index"
   else ret tt) >>
  ret child_level_links.

(** One iteration of the inner loop: [continue] returns the children
    accumulated so far. *)
Definition process_parent (child_level_links : gset string) (parent_link : string)
  : M (gset string) :=
  let* sp := get_self in
  if decide (parent_link ∈ unique_links_set sp) then ret child_level_links
  else
    unique_links_add parent_link >>
    let* site_request := get_request_with_delay parent_link in
    if decide (status_code site_request ≠ 200) then ret child_level_links
    else if PyStr.endswith (PyStr.lower parent_link) "pdf" then
      save_webpage_as_pdf parent_link site_request >>
      extract_and_index child_level_links parent_link site_request
    else if PyStr.endswith (PyStr.lower parent_link) "xlsx" then ret child_level_links
    else if PyStr.endswith (PyStr.lower parent_link) "xls" then ret child_level_links
    else
      save_webpage_as_text parent_link site_request >>
      extract_and_index child_level_links parent_link site_request.

(** [parent_level_links] at the start of an iteration of the outer loop. *)
Definition parent_level_links (sp : WebSpider) (depth : nat)
    (child_level_links : gset string) : gset string :=
  if decide (depth = 0%nat) then {[root_site sp]} else child_level_links.

(** One iteration of the outer loop; it returns the [child_level_links]
    the next iteration reads. *)
Definition run_depth (child_level_links : gset string) (depth : nat) : M (gset string) :=
  let* sp := get_self in
  foldM process_parent ∅ (set_iter env (parent_level_links sp depth child_level_links)).

(** The first [n] iterations of the outer loop.  [child_level_links] is
    unbound before the first one, which does not read it. *)
Definition run_depths (n : nat) : M (gset string) :=
  foldM run_depth ∅ (seq 0 n).

(** The statements after the loop. *)
Definition finish : M unit :=
  let* sp := get_self in
  (if indexing_on sp
   then upload_data_to_sql (create_unique_links_df sp) "unique_links"
   else ret tt) >>
  match indexing_definitions_obj sp with
  | None => raise AttributeError
  | Some _ => emit EvDispose
  end.

(** [run_spider] *)
Definition run_spider : M unit :=
  let* sp := get_self in
  run_depths (Z.to_nat (pen_depth sp)) >>
  finish.

End Methods.

(** ** Observations on a run *)

(** The links passed to [session.get], in order. *)
Definition fetched (evs : list Event) : list string :=
  omap (λ e, match e with EvGet link => Some link | _ => None end) evs.

(** The calls made to the relational sink. *)
Definition is_sink_call (e : Event) : bool :=
  match e with EvGet _ => false | EvToSql _ _ _ | EvDispose => true end.

Definition sink_calls (evs : list Event) : list Event :=
  List.filter is_sink_call evs.

(** The rows of the Edge batches uploaded, in order. *)
Definition edge_rows (evs : list Event) : list (Z * string * string) :=
  mbind (λ e, match e with EvToSql _ _ (ParentChildDF rows) => rows | _ => [] end) evs.

(** The links the scheduler has marked visited. *)
Definition visited (w : World) : gset string := unique_links_set (self w).

(** [parent_level_links] at depth [d] of the run started in [w], when the
    run gets there. *)
Definition frontier (env : Env) (w : World) (d : nat) : except (gset string) :=
  match res_val (run_depths env d w) with
  | Ok child_level_links => Ok (parent_level_links (self w) d child_level_links)
  | Raise e => Raise e
  end.

(** The world at the start of iteration [d] of the outer loop. *)
Definition world_at (env : Env) (w : World) (d : nat) : World :=
  res_world (run_depths env d w).

(** The link is skipped as a spreadsheet: its lowercase form ends with
    [xlsx] or [xls]. *)
Definition is_sheet (link : string) : bool :=
  PyStr.endswith (PyStr.lower link) "xlsx" || PyStr.endswith (PyStr.lower link) "xls".

(** [c] is a filtered child of the page [p]: the page answers 200, is
    saved rather than skipped as a spreadsheet, and the filter keeps [c]
    among its links. *)
Definition child_of (env : Env) (sp : WebSpider) (p c : string) : Prop :=
  ∃ r kept,
    session_get env p = Some r ∧
    status_code r = 200 ∧
    is_sheet p = false ∧
    clean_webpage_links (filter_word_list sp) (get_all_links_from_page env r) = Ok kept ∧
    Some c ∈ kept.

(** ** The cases of one iteration of the inner loop

    [parent_step env acc p w r]: processing the parent [p] in the world [w]
    with the children [acc] accumulated so far ends in [r]. *)
Inductive parent_step (env : Env) (acc : gset string) (p : string) (w : World)
  : Res (gset string) → Prop :=
| step_skip :
    p ∈ visited w →
    parent_step env acc p w (mkRes (Ok acc) w [])
| step_transport :
    p ∉ visited w →
    session_get env p = None →
    parent_step env acc p w
      (mkRes (Raise RequestException) (mkWorld (visit p (self w)) (files w)) [EvGet p])
| step_status r :
    p ∉ visited w →
    session_get env p = Some r →
    status_code r ≠ 200 →
    parent_step env acc p w
      (mkRes (Ok acc) (mkWorld (visit p (self w)) (files w)) [EvGet p])
| step_sheet r :
    p ∉ visited w →
    session_get env p = Some r →
    status_code r = 200 →
    is_sheet p = true →
    parent_step env acc p w
      (mkRes (Ok acc) (mkWorld (visit p (self w)) (files w)) [EvGet p])
| step_filter_raises r fs e :
    p ∉ visited w →
    session_get env p = Some r →
    status_code r = 200 →
    is_sheet p = false →
    clean_webpage_links (filter_word_list (self w)) (get_all_links_from_page env r)
      = Raise e →
    parent_step env acc p w
      (mkRes (Raise e) (mkWorld (visit p (self w)) fs) [EvGet p])
| step_children r fs kept :
    p ∉ visited w →
    session_get env p = Some r →
    status_code r = 200 →
    is_sheet p = false →
    clean_webpage_links (filter_word_list (self w)) (get_all_links_from_page env r)
      = Ok kept →
    indexing_on (self w) = false →
    parent_step env acc p w
      (mkRes (Ok (acc ∪ links_of kept)) (mkWorld (visit p (self w)) fs) [EvGet p])
| step_unbound r fs kept :
    p ∉ visited w →
    session_get env p = Some r →
    status_code r = 200 →
    is_sheet p = false →
    clean_webpage_links (filter_word_list (self w)) (get_all_links_from_page env r)
      = Ok kept →
    indexing_on (self w) = true →
    indexing_definitions_obj (self w) = None →
    parent_step env acc p w
      (mkRes (Raise AttributeError) (mkWorld (visit p (self w)) fs) [EvGet p])
| step_indexed r fs kept obj :
    p ∉ visited w →
    session_get env p = Some r →
    status_code r = 200 →
    is_sheet p = false →
    clean_webpage_links (filter_word_list (self w)) (get_all_links_from_page env r)
      = Ok kept →
    indexing_on (self w) = true →
    indexing_definitions_obj (self w) = Some obj →
    parent_step env acc p w
      (mkRes (Ok (acc ∪ links_of kept)) (mkWorld (visit p (self w)) fs)
         [EvGet p;
          EvToSql (db_index_table_name obj) (db_index_schema obj)
            (create_parent_child_dataframe env (visit p (self w)) p
               (acc ∪ links_of kept))]).

(** ** Relations between the two ends of a computation

    [J w evs w'] relates the world before, the events emitted and the world
    after.  A relation that holds when nothing runs and composes along
    sequencing holds of a loop as soon as it holds of the loop's body. *)
Class TraceRel (J : World → list Event → World → Prop) : Prop := {
  rel_nil : ∀ w, J w [] w;
  rel_app : ∀ w1 e1 w2 e2 w3, J w1 e1 w2 → J w2 e2 w3 → J w1 (e1 ++ e2) w3
}.

Definition holds {A : Type} (J : World → list Event → World → Prop) (m : M A) (w : World)
  : Prop :=
  J w (res_events (m w)) (res_world (m w)).

(** No attribute but [unique_links_set] changes, and that one grows. *)
Definition frame_rel (w : World) (evs : list Event) (w' : World) : Prop :=
  root_site (self w') = root_site (self w) ∧
  pen_depth (self w') = pen_depth (self w) ∧
  raw_files_save_path (self w') = raw_files_save_path (self w) ∧
  indexing_definitions_obj (self w') = indexing_definitions_obj (self w) ∧
  indexing_on (self w') = indexing_on (self w) ∧
  filter_word_list (self w') = filter_word_list (self w) ∧
  visited w ⊆ visited w'.

(** Each link is fetched once, when it was not visited, and is visited
    from then on. *)
Definition fetch_rel (w : World) (evs : list Event) (w' : World) : Prop :=
  NoDup (fetched evs) ∧
  (∀ link, link ∈ fetched evs → link ∉ visited w) ∧
  visited w' = list_to_set (fetched evs) ∪ visited w.

(** Every Edge row uploaded carries the instance's [pen_depth]. *)
Definition edge_rel (w : World) (evs : list Event) (w' : World) : Prop :=
  pen_depth (self w') = pen_depth (self w) ∧
  ∀ row, row ∈ edge_rows evs → row.1.1 = pen_depth (self w).

(** With indexing off, nothing reaches the sink. *)
Definition indexing_off (w : World) : Prop :=
  indexing_on (self w) = false ∧ indexing_definitions_obj (self w) = None.

Definition quiet_rel (w : World) (evs : list Event) (w' : World) : Prop :=
  indexing_off w → indexing_off w' ∧ sink_calls evs = [].

(** ** Scenarios *)

Module Scenario.

(** A page whose text and bytes are [body]. *)
Definition page (status : Z) (body : string) : Response := mkResponse status body body.

(** A stand-in for the digest: the scenarios do not depend on its values. *)
Definition toy_digest (s : string) : string := PyStr.lower s.

(** The site of the scenarios: the root page answers 200 and links to
    [/about] and to the login page; every other link answers 404. *)
Definition example_env : Env :=
  {| session_get := λ link,
       if decide (link = "http://example.com") then Some (page 200 "root page")
       else Some (page 404 "");
     find_all_a := λ body,
       if decide (body = "root page")
       then [mkAnchor (Some "/about"); mkAnchor (Some "http://example.com/login")]
       else [];
     md5_hexdigest := toy_digest;
     set_iter := elements |}.

Definition example_setup : SpiderIndexSQLSetup :=
  mkSetup "raw" "indexing" "raw" "unique_links".

(** A spider on that site, with the deny-list replaced by [words]. *)
Definition spider (words : list string) (obj : option SpiderIndexSQLSetup) : WebSpider :=
  let sp := init "http://example.com" 2 "/tmp/" obj in
  {| root_site := root_site sp;
     pen_depth := pen_depth sp;
     raw_files_save_path := raw_files_save_path sp;
     indexing_definitions_obj := indexing_definitions_obj sp;
     indexing_on := indexing_on sp;
     unique_links_set := unique_links_set sp;
     filter_word_list := words |}.

Definition login_only : World := mkWorld (spider ["login"] None) ∅.

Definition indexed : World :=
  mkWorld (init "http://example.com" 2 "/tmp/" (Some example_setup)) ∅.

Definition not_indexed : World :=
  mkWorld (init "http://example.com" 2 "/tmp/" None) ∅.

(** A site on which every link answers 200, a spreadsheet too. *)
Definition sheet_env : Env :=
  {| session_get := λ link, Some (page 200 link);
     find_all_a := λ body, [mkAnchor (Some "/next")];
     md5_hexdigest := toy_digest;
     set_iter := elements |}.

End Scenario.

(** ** More relations and observations of a run *)

(** The engine is not disposed of. *)
Definition no_dispose_rel (w : World) (evs : list Event) (w' : World) : Prop :=
  EvDispose ∉ evs.


(** The save directory stays the same, no file disappears, and a file whose
    path does not begin with the save directory keeps its content. *)
Definition files_rel (w : World) (evs : list Event) (w' : World) : Prop :=
  raw_files_save_path (self w') = raw_files_save_path (self w) ∧
  (∀ path, is_Some (files w !! path) → is_Some (files w' !! path)) ∧
  (∀ path, PyStr.startswith path (raw_files_save_path (self w)) = false →
           files w' !! path = files w !! path).


(** [link] is the root, or a filtered child of a page fetched in [evs]. *)
Definition reached (env : Env) (sp : WebSpider) (evs : list Event) (link : string) : Prop :=
  link = root_site sp ∨ ∃ p, p ∈ fetched evs ∧ child_of env sp p link.


(** The Edge rows an event carries are all at depth [d]. *)
Definition rows_at (d : Z) (e : Event) : Prop :=
  ∀ row, row ∈ edge_rows [e] → row.1.1 = d.


(** ** The superseded spider: [scripts/spiders/superseded/web_spider.py] *)

Module Superseded.

(** The result of a piece of [run_spider]: its value or exception, the
    local [unique_links_set] after it, and the calls it made. *)
Record Res (A : Type) : Type := mkRes {
  res_val : except A;
  res_seen : gset string;
  res_events : list Event
}.
Arguments mkRes {A} _ _ _.
Arguments res_val {A} _.
Arguments res_seen {A} _.
Arguments res_events {A} _.

(** [get_filter_word_list] *)
Definition get_filter_word_list : list string :=
  ["career"; "login"; "http"; "pay"; "your"; "account"; "auth"; "contact"; "pdf";
   "activate"].

(** [create_parent_child_dataframe(depth, parent_link, child_links)] *)
Definition create_parent_child_dataframe (env : Env) (depth : Z) (parent_link : string)
    (child_links : gset string) : DataFrame :=
  ParentChildDF (product (product [depth] [parent_link]) (set_iter env child_links)).

(** [create_unique_links_df(unique_links)] *)
Definition create_unique_links_df (env : Env) (unique_links : gset string) : DataFrame :=
  UniqueLinksDF (imap (λ i link, (i, link)) (set_iter env unique_links)).

(** One iteration of the inner loop of [run_spider], from the
    [unique_links_set] and the [child_level_links] before it. *)
Definition process_parent (env : Env) (filter_word_list : list string) (depth : nat)
    (unique_links_set child_level_links : gset string) (parent_link : string)
  : Res (gset string) :=
  if decide (parent_link ∈ unique_links_set)
  then mkRes (Ok child_level_links) unique_links_set []
  else
    let unique_links_set := {[parent_link]} ∪ unique_links_set in
    match session_get env parent_link with
    | None => mkRes (Raise RequestException) unique_links_set [EvGet parent_link]
    | Some site_request =>
        if decide (status_code site_request ≠ 200)
        then mkRes (Ok child_level_links) unique_links_set [EvGet parent_link]
        else
          match clean_webpage_links filter_word_list
                  (get_all_links_from_page env site_request) with
          | Raise e => mkRes (Raise e) unique_links_set [EvGet parent_link]
          | Ok cleaned_child_links =>
              let child_level_links := child_level_links ∪ links_of cleaned_child_links in
              mkRes (Ok child_level_links) unique_links_set
                [EvGet parent_link;
                 EvToSql "parent_child_relationships" "public"
                   (create_parent_child_dataframe env (Z.of_nat depth) parent_link
                      child_level_links)]
          end
    end.

(** A [for] loop whose body may raise: the loop stops at the exception. *)
Fixpoint for_each {B : Type} (body : gset string → gset string → B → Res (gset string))
    (seen acc : gset string) (xs : list B) : Res (gset string) :=
  match xs with
  | [] => mkRes (Ok acc) seen []
  | x :: xs' =>
      let r := body seen acc x in
      match res_val r with
      | Ok acc' =>
          let r' := for_each body (res_seen r) acc' xs' in
          mkRes (res_val r') (res_seen r') (res_events r ++ res_events r')
      | Raise e => mkRes (Raise e) (res_seen r) (res_events r)
      end
  end.

(** One iteration of the outer loop. *)
Definition run_depth (env : Env) (filter_word_list : list string) (root_site : string)
    (unique_links_set child_level_links : gset string) (depth : nat)
  : Res (gset string) :=
  let parent_level_links :=
    if decide (depth = 0%nat) then {[root_site]} else child_level_links in
  for_each (process_parent env filter_word_list depth) unique_links_set ∅
    (set_iter env parent_level_links).

(** [run_spider(root_site, pen_depth)] *)
Definition run_spider (env : Env) (root_site : string) (pen_depth : Z) : Res unit :=
  let r := for_each (run_depth env get_filter_word_list root_site) ∅ ∅
             (seq 0 (Z.to_nat pen_depth)) in
  match res_val r with
  | Ok _ =>
      mkRes (Ok tt) (res_seen r)
        (res_events r ++
         [EvToSql "unique_links" "public" (create_unique_links_df env (res_seen r));
          EvDispose])
  | Raise e => mkRes (Raise e) (res_seen r) (res_events r)
  end.

End Superseded.


(** ** The indexing set-up: [spider_indexing_dataclass.py] and
       [db_connection_funcs.py] *)

Module Setup.

(** [property_defaults], in the order of the dict. *)
Definition property_defaults : list (string * string) :=
  [("sql_engine_str", "postgresql+psycopg2");
   ("host", "localhost");
   ("database", "web_spider_data");
   ("user", "postgres");
   ("password", "postgres");
   ("port", "5432");
   ("db_index_schema", "raw");
   ("db_index_table_name", "indexing");
   ("unique_links_schema", "raw");
   ("unique_links_table_name", "unique_links")].

(** The loop of [SpiderIndexSQLSetup.__init__]:
    [setattr(self, prop, kwargs.get(prop, default))] for each property, on
    the attributes [obj] of the instance. *)
Definition set_properties (kwargs obj : gmap string string) : gmap string string :=
  foldl (λ obj pd, <[pd.1 := default pd.2 (kwargs !! pd.1)]> obj) obj property_defaults.

(** [self.<name>]: an [AttributeError] when the attribute is not bound. *)
Definition getattr (obj : gmap string string) (name : string) : except string :=
  match obj !! name with
  | Some v => Ok v
  | None => Raise AttributeError
  end.

Definition and_then {A B : Type} (r : except A) (k : A → except B) : except B :=
  match r with
  | Ok a => k a
  | Raise e => Raise e
  end.

(** The URL [bind_sql_engine] passes to [create_engine].  The f-string
    is continued on a second line inside the literal, so the twelve blanks
    that indent that line are part of the URL. *)
Definition bind_sql_engine_url (obj : gmap string string) : except string :=
  and_then (getattr obj "sql_engine_str") (λ sql_engine_str,
  and_then (getattr obj "user") (λ user,
  and_then (getattr obj "password") (λ password,
  and_then (getattr obj "host") (λ host,
  and_then (getattr obj "port") (λ port,
  and_then (getattr obj "database") (λ database,
  Ok (sql_engine_str +:+ "://" +:+ user +:+ ":" +:+ password +:+
      "            @" +:+ host +:+ ":" +:+ port +:+ "/" +:+ database))))))).

(** The URL [create_postgresql_engine] of [db_connection_funcs.py] passes
    to [create_engine]. *)
Definition create_postgresql_engine_url (host database user password port : string)
  : string :=
  "postgresql+psycopg2://" +:+ user +:+ ":" +:+ password +:+ "@" +:+ host +:+ ":" +:+
  port +:+ "/" +:+ database.

End Setup.


(** ** More scenarios *)

Module Cases.

(** A site that answers 404 to every link. *)
Definition down_env : Env :=
  {| session_get := λ link, Some (Scenario.page 404 "");
     find_all_a := λ body, [];
     md5_hexdigest := Scenario.toy_digest;
     set_iter := elements |}.


(** A spider asked for no depth at all. *)
Definition no_depth : World :=
  mkWorld (init "http://example.com" 0 "/tmp/" (Some Scenario.example_setup)) ∅.

(** The links kept among those of the root page of [Scenario.example_env]
    under the default deny-list. *)
Definition root_children : gset candidate :=
  {[Some "/about"; Some "http://example.com/login"]}.

End Cases.

(** ** Facts about the string operations *)

Lemma startswith_app (s p : string) :
  PyStr.startswith s p = true ↔ ∃ q, s = p +:+ q.
Proof.
  revert s. induction p as [|b p IH]; intros s; simpl.
  - split; [intros _; exists s; reflexivity | done].
  - destruct s as [|a s]; simpl.
    + split; [done | intros [q Hq]; discriminate].
    + case_decide as Hab.
      * subst b. rewrite IH. split; intros [q Hq]; exists q.
        -- by rewrite Hq.
        -- by injection Hq.
      * split; [done | intros [q Hq]; injection Hq; congruence].
Qed.

(** [contains s w] holds exactly when [w] is a contiguous block of [s]. *)
Lemma contains_app (s w : string) :
  PyStr.contains s w = true ↔ ∃ p q, s = p +:+ w +:+ q.
Proof.
  induction s as [|a s IH]; simpl.
  - rewrite orb_false_r, startswith_app. split.
    + intros [q Hq]. by exists "", q.
    + intros ([|b p] & q & Hq); [by exists q | discriminate].
  - rewrite orb_true_iff, IH, startswith_app. split.
    + intros [[q Hq] | (p & q & Hq)].
      * by exists "", q.
      * exists (String a p), q. simpl. by rewrite Hq.
    + intros ([|b p] & q & Hq).
      * left. by exists q.
      * right. exists p, q. simpl in Hq. by injection Hq.
Qed.

(** [endswith s suf] holds exactly when [suf] is a tail of [s]. *)
Lemma endswith_app (s suf : string) :
  PyStr.endswith s suf = true ↔ ∃ p, s = p +:+ suf.
Proof.
  induction s as [|a s IH]; simpl.
  - case_decide as Heq.
    + split; [intros _; exists ""; by rewrite <-Heq | done].
    + split; [done |]. intros ([|b p] & Hp); [by destruct Heq | discriminate].
  - case_decide as Heq.
    + split; [intros _; exists ""; by rewrite <-Heq | done].
    + rewrite IH. split.
      * intros [p Hp]. exists (String a p). simpl. by rewrite Hp.
      * intros ([|b p] & Hp); [by destruct Heq |].
        exists p. simpl in Hp. by injection Hp.
Qed.

(** The empty word is in every string, and only a string holding no
    non-empty word is disjoint from all of them. *)
Lemma contains_empty_word (s : string) : PyStr.contains s "" = true.
Proof. by destruct s. Qed.

Lemma empty_contains (w : string) : PyStr.contains "" w = true ↔ w = "".
Proof. destruct w; simpl; split; done. Qed.

Lemma endswith_last_char (s suf : string) :
  PyStr.endswith s suf = true → suf ≠ "" → PyStr.last_char s = PyStr.last_char suf.
Proof.
  intros Hend Hsuf. induction s as [|a s IH]; simpl in Hend.
  - case_decide; [congruence | done].
  - case_decide as Heq; [by rewrite Heq |].
    destruct s as [|b s]; [simpl in Hend; case_decide; congruence |].
    by rewrite <-IH.
Qed.

Lemma endswith_sheet_not_pdf (s : string) :
  PyStr.endswith s "xlsx" = true ∨ PyStr.endswith s "xls" = true →
  PyStr.endswith s "pdf" = false.
Proof.
  intros Hsheet. destruct (PyStr.endswith s "pdf") eqn:Hpdf; [|done].
  apply endswith_last_char in Hpdf; [|done].
  destruct Hsheet as [H|H]; apply endswith_last_char in H; try done;
    rewrite Hpdf in H; discriminate.
Qed.

(** ** The link filter *)

Lemma elem_of_product {A B : Type} (xs : list A) (ys : list B) (x : A) (y : B) :
  (x, y) ∈ product xs ys ↔ x ∈ xs ∧ y ∈ ys.
Proof.
  unfold product. rewrite list_elem_of_bind. split.
  - intros (x' & Hin & Hx'). apply list_elem_of_fmap in Hin as (y' & Heq & Hy').
    by simplify_eq.
  - intros [Hx Hy]. exists x. split; [|done]. apply list_elem_of_fmap. by exists y.
Qed.

Lemma clean_loop_elem (pairs : list (candidate * string)) :
  ∀ (acc clean_links : list candidate),
    clean_loop pairs acc = Ok clean_links →
    ∀ c, c ∈ clean_links ↔ c ∈ acc ∨ ∃ w, (c, w) ∈ pairs ∧ kept_by w c.
Proof.
  induction pairs as [|[link word] rest IH]; intros acc clean_links Hrun c; simpl in Hrun.
  - simplify_eq. split; [by left |]. intros [?|(w & Hin & _)]; [done |].
    by apply elem_of_nil in Hin.
  - destruct link as [s|]; simpl in Hrun; [|done].
    destruct (PyStr.contains s word) eqn:Hsub; simpl in Hrun.
    + rewrite (IH _ _ Hrun c). split.
      * intros [?|(w & Hin & Hk)]; [by left | right; exists w].
        split; [by apply list_elem_of_further | done].
      * intros [?|(w & Hin & Hk)]; [by left |].
        apply elem_of_cons in Hin as [Heq|Hin]; [|right; by exists w].
        simplify_eq. destruct Hk as (s' & ? & ? & ?). simplify_eq. congruence.
    + case_decide as Hslash; simpl in Hrun; rewrite (IH _ _ Hrun c).
      * split.
        -- intros [?|(w & Hin & Hk)]; [by left | right; exists w].
           split; [by apply list_elem_of_further | done].
        -- intros [?|(w & Hin & Hk)]; [by left |].
           apply elem_of_cons in Hin as [Heq|Hin]; [|right; by exists w].
           simplify_eq. destruct Hk as (s' & ? & ? & ?). by simplify_eq.
      * rewrite elem_of_app, list_elem_of_singleton. split.
        -- intros [[?| ->]|(w & Hin & Hk)].
           ++ by left.
           ++ right. exists word. split; [by apply list_elem_of_here |]. by exists s.
           ++ right. exists w. split; [by apply list_elem_of_further | done].
        -- intros [?|(w & Hin & Hk)]; [by left; left |].
           apply elem_of_cons in Hin as [Heq|Hin]; [|right; by exists w].
           simplify_eq. by left; right.
Qed.

Lemma clean_loop_raises (pairs : list (candidate * string)) :
  ∀ acc e, clean_loop pairs acc = Raise e →
    e = TypeError ∧ ∃ w, (None, w) ∈ pairs.
Proof.
  induction pairs as [|[link word] rest IH]; intros acc e Hrun; simpl in Hrun; [done |].
  destruct link as [s|]; simpl in Hrun.
  - destruct (_ && _); apply IH in Hrun as [-> [w Hw]];
      (split; [done | exists w; by apply list_elem_of_further]).
  - simplify_eq. split; [done |]. exists word. apply list_elem_of_here.
Qed.

(** What the filter returns, when it returns: the string candidates other
    than ["/"] that miss at least one deny-word. *)
Lemma clean_webpage_links_elem (words : list string) (links : list candidate)
    (S : gset candidate) :
  clean_webpage_links words links = Ok S →
  ∀ c, c ∈ S ↔ c ∈ links ∧ ∃ w, w ∈ words ∧ kept_by w c.
Proof.
  unfold clean_webpage_links. intros Hrun c.
  destruct (clean_loop _ _) as [l|] eqn:Hloop; [|done]. simplify_eq.
  rewrite elem_of_list_to_set, (clean_loop_elem _ _ _ Hloop c). split.
  - intros [Hnil|(w & Hin & Hk)]; [by apply elem_of_nil in Hnil |].
    apply elem_of_product in Hin as [? ?]. split; [done | by exists w].
  - intros (Hin & w & Hw & Hk). right. exists w. by rewrite elem_of_product.
Qed.

(** It raises only on a [None] candidate met with a deny-word. *)
Lemma clean_webpage_links_raises (words : list string) (links : list candidate) (e : exn) :
  clean_webpage_links words links = Raise e →
  e = TypeError ∧ None ∈ links ∧ words ≠ [].
Proof.
  unfold clean_webpage_links. destruct (clean_loop _ _) as [l|e'] eqn:Hloop; [done |].
  intros ?; simplify_eq. apply clean_loop_raises in Hloop as [-> [w Hw]].
  apply elem_of_product in Hw as [? Hw]. split_and!; [done..|].
  intros ->. by apply elem_of_nil in Hw.
Qed.

(** ** Running the monad *)

(** How [bind] runs, by what its first computation gives. *)
Lemma after_nil {A} (r : Res A) : after [] r = r.
Proof. by destruct r. Qed.

Lemma bind_Ok {A B} (m : M A) (k : A → M B) w a w' evs :
  m w = mkRes (Ok a) w' evs → bind m k w = after evs (k a w').
Proof. unfold bind. by intros ->. Qed.

Lemma bind_Raise {A B} (m : M A) (k : A → M B) w e w' evs :
  m w = mkRes (Raise e) w' evs → bind m k w = mkRes (Raise e) w' evs.
Proof. unfold bind. by intros ->. Qed.

Lemma bind_get_self {A} (k : WebSpider → M A) w :
  bind get_self k w = k (self w) w.
Proof. erewrite bind_Ok by reflexivity. apply after_nil. Qed.

Lemma bind_modify {A} f (k : unit → M A) w :
  bind (modify f) k w = k tt (f w).
Proof. erewrite bind_Ok by reflexivity. apply after_nil. Qed.

(** The request is one event, and its failure an exception. *)
Lemma get_request_with_delay_run env p w :
  get_request_with_delay env p w =
    mkRes (match session_get env p with
           | Some r => Ok r
           | None => Raise RequestException
           end) w [EvGet p].
Proof.
  unfold get_request_with_delay. erewrite bind_Ok by reflexivity.
  by destruct (session_get env p).
Qed.

(** Saving a page touches the directory only, and never raises. *)
Lemma save_webpage_as_text_run env url r w :
  ∃ fs, save_webpage_as_text env url r w = mkRes (Ok tt) (mkWorld (self w) fs) [].
Proof. by eexists. Qed.

Lemma save_webpage_as_pdf_run env url r w :
  ∃ fs, save_webpage_as_pdf env url r w = mkRes (Ok tt) (mkWorld (self w) fs) [].
Proof. by eexists. Qed.

(** The end of the loop body, by what the filter and the indexing give. *)
Lemma extract_and_index_run env acc p r w :
  extract_and_index env acc p r w =
    match clean_webpage_links (filter_word_list (self w)) (get_all_links_from_page env r) with
    | Raise e => mkRes (Raise e) w []
    | Ok kept =>
        if indexing_on (self w) then
          match indexing_definitions_obj (self w) with
          | None => mkRes (Raise AttributeError) w []
          | Some obj =>
              mkRes (Ok (acc ∪ links_of kept)) w
                [EvToSql (db_index_table_name obj) (db_index_schema obj)
                   (create_parent_child_dataframe env (self w) p (acc ∪ links_of kept))]
          end
        else mkRes (Ok (acc ∪ links_of kept)) w []
    end.
Proof.
  unfold extract_and_index, upload_data_to_sql, bind, get_self, lift, ret, raise, emit.
  simpl.
  destruct (clean_webpage_links _ _) as [kept|e]; simpl; [|done].
  destruct (indexing_on (self w)); simpl; [|done].
  destruct (indexing_definitions_obj (self w)); simpl; done.
Qed.

(** Every iteration of the inner loop is one of the cases of [parent_step]. *)
Lemma process_parent_step env acc p w :
  parent_step env acc p w (process_parent env acc p w).
Proof.
  unfold process_parent. rewrite bind_get_self.
  case_decide as Hv; [by apply step_skip |].
  unfold unique_links_add. rewrite bind_modify.
  destruct (session_get env p) as [r|] eqn:Hget.
  2: { erewrite bind_Raise by (rewrite get_request_with_delay_run, Hget; reflexivity).
       by apply step_transport. }
  erewrite bind_Ok by (rewrite get_request_with_delay_run, Hget; reflexivity).
  case_decide as Hst; [by eapply step_status |].
  assert (Hcont : ∀ fs, is_sheet p = false →
     parent_step env acc p w
       (after [EvGet p] (extract_and_index env acc p r (mkWorld (visit p (self w)) fs)))).
  { intros fs Hsheet. rewrite extract_and_index_run. simpl.
    destruct (clean_webpage_links _ _) as [kept|e] eqn:Hclean.
    - destruct (indexing_on (self w)) eqn:Hon.
      + destruct (indexing_definitions_obj (self w)) as [obj|] eqn:Hobj.
        * by eapply step_indexed.
        * by eapply step_unbound.
      + by eapply step_children.
    - by eapply step_filter_raises. }
  destruct (PyStr.endswith (PyStr.lower p) "pdf") eqn:Hpdf.
  { destruct (save_webpage_as_pdf_run env p r (mkWorld (visit p (self w)) (files w)))
      as [fs Hfs].
    erewrite (bind_Ok (save_webpage_as_pdf _ _ _)) by exact Hfs.
    rewrite after_nil. apply Hcont. unfold is_sheet.
    destruct (PyStr.endswith (PyStr.lower p) "xlsx") eqn:Hx;
      [by rewrite endswith_sheet_not_pdf in Hpdf by (by left) |].
    destruct (PyStr.endswith (PyStr.lower p) "xls") eqn:Hx';
      [by rewrite endswith_sheet_not_pdf in Hpdf by (by right) | done]. }
  destruct (PyStr.endswith (PyStr.lower p) "xlsx") eqn:Hx.
  { eapply step_sheet; [done..|]. unfold is_sheet. by rewrite Hx. }
  destruct (PyStr.endswith (PyStr.lower p) "xls") eqn:Hx'.
  { eapply step_sheet; [done..|]. unfold is_sheet. by rewrite Hx', orb_true_r. }
  destruct (save_webpage_as_text_run env p r (mkWorld (visit p (self w)) (files w)))
    as [fs Hfs].
  erewrite (bind_Ok (save_webpage_as_text _ _ _)) by exact Hfs.
  rewrite after_nil. apply Hcont. unfold is_sheet. by rewrite Hx, Hx'.
Qed.

(** A relation kept by the parts is kept by their sequence and by a loop. *)
Section Holds.
Context (J : World → list Event → World → Prop) `{!TraceRel J}.

Lemma holds_ret {A} (a : A) w : holds J (ret a) w.
Proof. apply rel_nil. Qed.

Lemma holds_bind {A B} (m : M A) (k : A → M B) w :
  holds J m w →
  (∀ a, res_val (m w) = Ok a → holds J (k a) (res_world (m w))) →
  holds J (bind m k) w.
Proof.
  unfold holds, bind. intros Hm Hk.
  destruct (res_val (m w)) as [a|e] eqn:Hv; simpl; [|done].
  eapply rel_app; [done | by apply Hk].
Qed.

Lemma holds_get_self_bind {A} (k : WebSpider → M A) w :
  holds J (k (self w)) w → holds J (bind get_self k) w.
Proof. unfold holds. by rewrite bind_get_self. Qed.

Lemma holds_foldM {A B} (body : A → B → M A) xs :
  (∀ a x w, holds J (body a x) w) →
  ∀ a w, holds J (foldM body a xs) w.
Proof.
  intros Hbody. induction xs as [|x xs IH]; intros a w; simpl.
  - apply holds_ret.
  - apply holds_bind; [apply Hbody |]. intros a' _. apply IH.
Qed.

(** A relation that every iteration of the inner loop keeps, and the
    statements after the loop keep, is kept by the run. *)
Lemma holds_run_depth env prev d w :
  (∀ acc p w, holds J (process_parent env acc p) w) →
  holds J (run_depth env prev d) w.
Proof.
  intros Hstep. unfold run_depth. apply holds_get_self_bind. by apply holds_foldM.
Qed.

Lemma holds_run_depths env n w :
  (∀ acc p w, holds J (process_parent env acc p) w) →
  holds J (run_depths env n) w.
Proof.
  intros Hstep. unfold run_depths. apply holds_foldM.
  intros. by apply holds_run_depth.
Qed.

Lemma holds_run_spider env w :
  (∀ acc p w, holds J (process_parent env acc p) w) →
  (∀ w, holds J (finish env) w) →
  holds J (run_spider env) w.
Proof.
  intros Hstep Hfin. unfold run_spider. apply holds_get_self_bind.
  apply holds_bind; [by apply holds_run_depths | intros; apply Hfin].
Qed.
End Holds.

(** The observations of a trace are those of its parts, in order. *)
Lemma fetched_app e1 e2 : fetched (e1 ++ e2) = fetched e1 ++ fetched e2.
Proof. apply omap_app. Qed.

Lemma edge_rows_app e1 e2 : edge_rows (e1 ++ e2) = edge_rows e1 ++ edge_rows e2.
Proof. apply bind_app. Qed.

Lemma sink_calls_app e1 e2 : sink_calls (e1 ++ e2) = sink_calls e1 ++ sink_calls e2.
Proof. apply List.filter_app. Qed.

(** The relations of the run compose. *)
Global Instance fetch_rel_trace : TraceRel fetch_rel.
Proof.
  split.
  - intros w. unfold fetch_rel. simpl. split_and!; [constructor | set_solver..].
  - intros w1 e1 w2 e2 w3 (Hnd1 & Hnew1 & Hv1) (Hnd2 & Hnew2 & Hv2).
    unfold fetch_rel. rewrite fetched_app. split_and!.
    + apply NoDup_app. split_and!; [done | | done].
      intros l Hl1 Hl2. apply (Hnew2 l Hl2). rewrite Hv1. set_solver.
    + intros l [Hl|Hl]%elem_of_app; [by apply Hnew1 |].
      intros Hin. apply (Hnew2 l Hl). rewrite Hv1. set_solver.
    + rewrite Hv2, Hv1, list_to_set_app_L. set_solver.
Qed.

Global Instance edge_rel_trace : TraceRel edge_rel.
Proof.
  split.
  - intros w. split; [done |]. intros row Hrow. by apply elem_of_nil in Hrow.
  - intros w1 e1 w2 e2 w3 [Hp1 Hr1] [Hp2 Hr2]. split; [congruence |].
    intros row. rewrite edge_rows_app, elem_of_app. intros [H|H]; [by apply Hr1 |].
    rewrite <-Hp1. by apply Hr2.
Qed.

Global Instance quiet_rel_trace : TraceRel quiet_rel.
Proof.
  split.
  - by intros w Hoff.
  - intros w1 e1 w2 e2 w3 H1 H2 Hoff.
    destruct (H1 Hoff) as [Hoff2 Hs1]. destruct (H2 Hoff2) as [Hoff3 Hs2].
    by rewrite sink_calls_app, Hs1, Hs2.
Qed.

(** One iteration of the inner loop, and the statements after the loop,
    keep each of them. *)
Lemma process_parent_fetch_rel env acc p w : holds fetch_rel (process_parent env acc p) w.
Proof.
  unfold holds. destruct (process_parent_step env acc p w); simpl.
  1: apply rel_nil.
  all: unfold fetch_rel, visited in *; simpl; split_and!;
    [apply NoDup_singleton | set_solver | set_solver].
Qed.

Lemma elem_of_product3 {A B C} (a : A) (b : B) (cs : list C) row :
  row ∈ product (product [a] [b]) cs → row.1.1 = a ∧ row.1.2 = b ∧ row.2 ∈ cs.
Proof.
  destruct row as [[a' b'] c]. rewrite !elem_of_product, !list_elem_of_singleton.
  naive_solver.
Qed.

Lemma process_parent_edge_rel env acc p w : holds edge_rel (process_parent env acc p) w.
Proof.
  unfold holds. destruct (process_parent_step env acc p w); simpl.
  1: apply rel_nil.
  all: split; [done |]; simpl; try (intros row Hrow; by apply elem_of_nil in Hrow).
  unfold edge_rows. simpl. rewrite app_nil_r. intros row Hrow.
  by apply elem_of_product3 in Hrow as [? _].
Qed.

Lemma process_parent_quiet_rel env acc p w : holds quiet_rel (process_parent env acc p) w.
Proof.
  unfold holds. destruct (process_parent_step env acc p w); simpl.
  1: apply rel_nil.
  all: intros [Hon Hobj]; unfold indexing_off; simpl; try done; congruence.
Qed.

(** The statements after the loop, by the two indexing attributes. *)
Lemma finish_run env w :
  finish env w =
    if indexing_on (self w) then
      match indexing_definitions_obj (self w) with
      | None => mkRes (Raise AttributeError) w []
      | Some obj =>
          mkRes (Ok tt) w
            [EvToSql (unique_links_table_name obj) (unique_links_schema obj)
               (create_unique_links_df env (self w));
             EvDispose]
      end
    else
      match indexing_definitions_obj (self w) with
      | None => mkRes (Raise AttributeError) w []
      | Some obj => mkRes (Ok tt) w [EvDispose]
      end.
Proof.
  unfold finish, upload_data_to_sql, bind, get_self, ret, raise, emit. simpl.
  destruct (indexing_on (self w)); destruct (indexing_definitions_obj (self w)); done.
Qed.

Lemma finish_fetch_rel env w : holds fetch_rel (finish env) w.
Proof.
  unfold holds. rewrite finish_run.
  destruct (indexing_on (self w)); destruct (indexing_definitions_obj (self w)); simpl;
    (split_and!; [constructor | set_solver..]).
Qed.

Lemma finish_edge_rel env w : holds edge_rel (finish env) w.
Proof.
  unfold holds. rewrite finish_run.
  destruct (indexing_on (self w)); destruct (indexing_definitions_obj (self w)); simpl;
    (split; [done |]; intros row Hrow; by apply elem_of_nil in Hrow).
Qed.

Lemma finish_quiet_rel env w : holds quiet_rel (finish env) w.
Proof.
  unfold holds. rewrite finish_run. intros [Hon Hobj]. rewrite Hon, Hobj. done.
Qed.

(** ** The frame of a run, and the children a depth collects *)

Global Instance frame_rel_trace : TraceRel frame_rel.
Proof.
  split.
  - intros w. by unfold frame_rel.
  - intros w1 e1 w2 e2 w3 (?&?&?&?&?&?&?) (?&?&?&?&?&?&?).
    unfold frame_rel. split_and!; [congruence..|set_solver].
Qed.

Lemma process_parent_frame_rel env acc p w : holds frame_rel (process_parent env acc p) w.
Proof.
  unfold holds. destruct (process_parent_step env acc p w); simpl.
  1: apply rel_nil.
  all: unfold frame_rel, visited; simpl; split_and!; [done..|set_solver].
Qed.

Lemma finish_frame_rel env w : holds frame_rel (finish env) w.
Proof.
  unfold holds. rewrite finish_run.
  destruct (indexing_on (self w)); destruct (indexing_definitions_obj (self w)); simpl;
    by unfold frame_rel.
Qed.

(** A run changes no attribute of the instance but the visited set. *)
Lemma run_spider_frame_rel env w : holds frame_rel (run_spider env) w.
Proof.
  apply holds_run_spider; [apply _ | apply process_parent_frame_rel | apply finish_frame_rel].
Qed.

Lemma elem_of_links_of (kept : gset candidate) (c : string) :
  c ∈ links_of kept ↔ Some c ∈ kept.
Proof.
  unfold links_of. rewrite elem_of_set_omap. split; [|by exists (Some c)].
  by intros (y & Hy & ->).
Qed.

Lemma bind_val_Ok {A B} (m : M A) (k : A → M B) w b :
  res_val (bind m k w) = Ok b →
  ∃ a, res_val (m w) = Ok a ∧ res_val (k a (res_world (m w))) = Ok b.
Proof.
  unfold bind. destruct (res_val (m w)) as [a|e]; [|done]. simpl. by exists a.
Qed.

(** What one iteration adds to the children accumulated. *)
Lemma process_parent_children env acc p w acc' :
  res_val (process_parent env acc p w) = Ok acc' →
  (∀ c, c ∈ acc' ↔ c ∈ acc ∨ ((p ∉ visited w) ∧ child_of env (self w) p c)) ∧
  visited (res_world (process_parent env acc p w)) = {[p]} ∪ visited w.
Proof.
  destruct (process_parent_step env acc p w) as
    [Hv|Hv Hget|r Hv Hget Hst|r Hv Hget Hst Hsh|r fs e Hv Hget Hst Hsh Hcl
     |r fs kept Hv Hget Hst Hsh Hcl Hon|r fs kept Hv Hget Hst Hsh Hcl Hon Hobj
     |r fs kept obj Hv Hget Hst Hsh Hcl Hon Hobj];
    simpl; intros Hok; simplify_eq; unfold visited in *; simpl.
  - split; [|set_solver]. intros c. naive_solver.
  - split; [|done]. intros c. split; [by left |].
    intros [?|[_ (r' & kept & ? & ? & _)]]; [done | congruence].
  - split; [|done]. intros c. split; [by left |].
    intros [?|[_ (r' & kept & ? & ? & ? & _)]]; [done | congruence].
  - split; [|done]. intros c. rewrite elem_of_union, elem_of_links_of. split.
    + intros [?|?]; [by left | right]. split; [done |]. by exists r, kept.
    + intros [?|[_ (r' & kept' & ? & ? & ? & ? & ?)]]; [by left | right]. congruence.
  - split; [|done]. intros c. rewrite elem_of_union, elem_of_links_of. split.
    + intros [?|?]; [by left | right]. split; [done |]. by exists r, kept.
    + intros [?|[_ (r' & kept' & ? & ? & ? & ? & ?)]]; [by left | right]. congruence.
Qed.

Lemma child_of_filter env sp sp' p c :
  filter_word_list sp' = filter_word_list sp →
  child_of env sp' p c ↔ child_of env sp p c.
Proof. unfold child_of. by intros ->. Qed.

(** The inner loop over distinct parents. *)
Lemma inner_loop_children env ps :
  NoDup ps →
  ∀ acc w children,
    res_val (foldM (process_parent env) acc ps w) = Ok children →
    ∀ c, c ∈ children ↔
         c ∈ acc ∨ (∃ p, p ∈ ps ∧ (p ∉ visited w) ∧ child_of env (self w) p c).
Proof.
  induction 1 as [|p ps Hp Hnd IH]; intros acc w children Hrun c; simpl in Hrun.
  - simplify_eq. split; [by left |]. intros [?|(p & Hin & _)]; [done |].
    by apply elem_of_nil in Hin.
  - apply bind_val_Ok in Hrun as (acc' & Hstep & Hrest).
    destruct (process_parent_children _ _ _ _ _ Hstep) as [Hacc' Hvis].
    destruct (process_parent_frame_rel env acc p w) as (_&_&_&_&_&Hwords&_).
    rewrite (IH _ _ _ Hrest c), Hacc'. split.
    + intros [[?|[? ?]]|(q & Hq & Hnv & Hch)].
      * by left.
      * right. exists p. split; [apply list_elem_of_here | done].
      * right. exists q. split; [by apply list_elem_of_further |].
        rewrite Hvis in Hnv. rewrite child_of_filter in Hch by done.
        split; [set_solver | done].
    + intros [?|(q & Hq & Hnv & Hch)]; [by left; left |].
      apply elem_of_cons in Hq as [->|Hq]; [left; right; done |].
      right. exists q. split; [done |]. rewrite Hvis, child_of_filter by done.
      split; [|done]. assert (q ≠ p) by (by intros ->). set_solver.
Qed.

(** A loop over [xs ++ ys] is the loop over [xs], then over [ys]; the
    first [n + 1] depths are the first [n], then depth [n]. *)
Lemma foldM_app {A B} (body : A → B → M A) xs ys a w :
  foldM body a (xs ++ ys) w = bind (foldM body a xs) (λ a', foldM body a' ys) w.
Proof.
  revert a w. induction xs as [|x xs IH]; intros a w; simpl.
  - unfold bind, ret. simpl. by rewrite after_nil.
  - unfold bind.
    destruct (body a x w) as [[a'|e] w' evs]; simpl; [|done].
    rewrite IH. unfold bind.
    destruct (foldM body a' xs w') as [[a''|e] w'' evs']; simpl; [|done].
    unfold after. simpl. by rewrite app_assoc.
Qed.

Lemma run_depths_S env n w :
  run_depths env (S n) w = bind (run_depths env n) (λ prev, run_depth env prev n) w.
Proof.
  unfold run_depths. rewrite seq_S, foldM_app. simpl.
  unfold bind. destruct (res_val (foldM _ _ _ w)); [|done].
  f_equal. destruct (run_depth _ _ _ _) as [[?|?] ? ?]; simpl; [|done].
  unfold after. simpl. by rewrite app_nil_r.
Qed.

(** The run is its outer loop, then the statements after it; the first
    [d] iterations of a longer loop are [run_depths d], which is what
    [frontier] and [world_at] read. *)
Lemma run_spider_unfold env w :
  run_spider env w =
    bind (run_depths env (Z.to_nat (pen_depth (self w)))) (λ _, finish env) w.
Proof. unfold run_spider. by rewrite bind_get_self. Qed.

Lemma run_depths_add env d k w :
  run_depths env (d + k) w =
    bind (run_depths env d) (λ prev, foldM (run_depth env) prev (seq d k)) w.
Proof. unfold run_depths. by rewrite seq_app, foldM_app. Qed.

(** An iteration of a set visits its elements, each once. *)
Lemma iter_ok_elem env X p : iter_ok env → p ∈ set_iter env X ↔ p ∈ X.
Proof. intros Hok. by rewrite (Hok X), elem_of_elements. Qed.

Lemma iter_ok_NoDup env X : iter_ok env → NoDup (set_iter env X).
Proof. intros Hok. rewrite (Hok X). apply NoDup_elements. Qed.


(** ** Persistence, fetches and Edge rows *)

(** An unvisited parent is marked and fetched, whatever the fetch gives. *)
Lemma process_parent_unvisited env acc p w :
  p ∉ visited w →
  fetched (res_events (process_parent env acc p w)) = [p] ∧
  visited (res_world (process_parent env acc p w)) = {[p]} ∪ visited w.
Proof.
  intros Hnv. destruct (process_parent_step env acc p w); simpl; done.
Qed.

Lemma string_app_assoc (s1 s2 s3 : string) : (s1 +:+ s2) +:+ s3 = s1 +:+ s2 +:+ s3.
Proof.
  induction s1 as [|a s1 IH]; [reflexivity |].
  change (String a ((s1 +:+ s2) +:+ s3) = String a (s1 +:+ s2 +:+ s3)). by rewrite IH.
Qed.

Lemma bind_ret {A B} (a : A) (k : A → M B) w : bind (ret a) k w = k a w.
Proof. erewrite bind_Ok by reflexivity. apply after_nil. Qed.

(** The directory after a save: the header and the body appended to the
    text file, the bytes replacing the PDF. *)
Lemma save_webpage_as_text_files env web_url r w name :
  generate_output_file_name env (self w) web_url "txt" = Ok name →
  let path := raw_files_save_path (self w) +:+ name +:+ ".txt" in
  save_webpage_as_text env web_url r w =
    mkRes (Ok tt)
      (mkWorld (self w)
         (<[path := default "" (files w !! path) +:+
                    "root_site:" +:+ root_site (self w) +:+ PyStr.newline +:+
                    "web_url:" +:+ web_url +:+ PyStr.newline +:+ text r]> (files w)))
      [].
Proof.
  intros Hname path. unfold save_webpage_as_text.
  rewrite bind_get_self, Hname. unfold lift. rewrite bind_ret. fold path.
  unfold open_append, file_write. rewrite !bind_modify. unfold modify. simpl.
  rewrite !lookup_insert_eq, !insert_insert_eq. simpl.
  by rewrite !string_app_assoc.
Qed.

Lemma save_webpage_as_pdf_files env web_url r w name :
  generate_output_file_name env (self w) web_url "pdf" = Ok name →
  let path := raw_files_save_path (self w) +:+ name +:+ ".pdf" in
  save_webpage_as_pdf env web_url r w =
    mkRes (Ok tt) (mkWorld (self w) (<[path := content r]> (files w))) [].
Proof.
  intros Hname path. unfold save_webpage_as_pdf.
  rewrite bind_get_self, Hname. unfold lift. rewrite bind_ret. fold path.
  unfold open_truncate, file_write. rewrite !bind_modify. unfold modify. simpl.
  by rewrite !lookup_insert_eq, !insert_insert_eq.
Qed.

(** Every Edge row of a run, and of one depth of it, carries [pen_depth]. *)
Lemma edge_rows_carry_pen_depth (env : Env) (w : World) (row : Z * string * string) :
  row ∈ edge_rows (res_events (run_spider env w)) → row.1.1 = pen_depth (self w).
Proof.
  intros Hrow.
  destruct (holds_run_spider edge_rel env w (process_parent_edge_rel env)
              (finish_edge_rel env)) as [_ Hrows].
  by apply Hrows.
Qed.

Lemma edge_rows_of_depth_carry_pen_depth (env : Env) (prev : gset string) (d : nat)
    (w : World) (row : Z * string * string) :
  row ∈ edge_rows (res_events (run_depth env prev d w)) → row.1.1 = pen_depth (self w).
Proof.
  intros Hrow.
  destruct (holds_run_depth edge_rel env prev d w (process_parent_edge_rel env))
    as [_ Hrows].
  by apply Hrows.
Qed.


Lemma edge_rows_never_fetch_depth (env : Env) (prev : gset string) (d : nat)
    (w : World) (row : Z * string * string) :
  (d < Z.to_nat (pen_depth (self w)))%nat →
  row ∈ edge_rows (res_events (run_depth env prev d w)) →
  row.1.1 ≠ Z.of_nat d.
Proof.
  intros Hd Hrow. rewrite (edge_rows_of_depth_carry_pen_depth env prev d w row Hrow). lia.
Qed.

(** The filter returns a set exactly when no [None] candidate meets a
    deny-word. *)
Lemma clean_webpage_links_total (words : list string) (links : list candidate) :
  (None ∉ links) ∨ words = [] →
  ∃ kept, clean_webpage_links words links = Ok kept.
Proof.
  intros Hdom. destruct (clean_webpage_links words links) as [kept|e] eqn:Hrun.
  - by exists kept.
  - apply clean_webpage_links_raises in Hrun as (_ & Hnone & Hwords).
    by destruct Hdom.
Qed.

Example clean_webpage_links_none :
  clean_webpage_links ["login"] [None] = Raise TypeError ∧
  clean_webpage_links [] [None] = Ok ∅.
Proof. split; vm_compute; reflexivity. Qed.

(** * The properties of the specification *)

(** A decidable closed proposition, by evaluation. *)
Ltac by_decide := apply (bool_decide_unpack _); vm_compute; exact I.

(** ** The link filter *)

(** The retention rule where the filter returns: on a candidate list with
    no [None] candidate, or under an empty deny-list, a candidate string other
    than ["/"] is retained if and only if at least one deny-word is not a
    substring of it; equivalently it is dropped if and only if every
    deny-word is a substring of it. *)
Theorem filter_retains_iff_some_word_absent (words : list string)
    (links : list candidate) (c : string) :
  (None ∉ links) ∨ words = [] →
  Some c ∈ links →
  c ≠ "/" →
  ∃ kept, clean_webpage_links words links = Ok kept ∧
    (Some c ∈ kept ↔ ∃ w, w ∈ words ∧ PyStr.contains c w = false) ∧
    ((Some c ∉ kept) ↔ ∀ w, w ∈ words → PyStr.contains c w = true).
Proof.
  intros Hdom Hin Hslash.
  destruct (clean_webpage_links_total words links Hdom) as [kept Hkept].
  exists kept. split; [done |].
  assert (Hiff : Some c ∈ kept ↔ ∃ w, w ∈ words ∧ PyStr.contains c w = false).
  { rewrite (clean_webpage_links_elem _ _ _ Hkept). split.
    - intros (_ & w & Hw & s & ? & _ & Hsub). simplify_eq. by exists w.
    - intros (w & Hw & Hsub). split; [done |]. exists w. split; [done |]. by exists c. }
  split; [done |]. rewrite Hiff. split.
  - intros Hnone w Hw. destruct (PyStr.contains c w) eqn:Hsub; [done |].
    destruct Hnone. by exists w.
  - intros Hall (w & Hw & Hsub). rewrite (Hall w Hw) in Hsub. done.
Qed.

Lemma filter_retains_iff_some_word_absent_witness :
  ((None ∉ [Some "/about"; Some "/pay/login"]) ∨ ["login"; "pay"] = []) ∧
  Some "/pay/login" ∈ [Some "/about"; Some "/pay/login"] ∧
  "/pay/login" ≠ "/" ∧
  ∃ kept, clean_webpage_links ["login"; "pay"] [Some "/about"; Some "/pay/login"] = Ok kept ∧
    (Some "/pay/login" ∈ kept ↔
       ∃ w, w ∈ ["login"; "pay"] ∧ PyStr.contains "/pay/login" w = false) ∧
    ((Some "/pay/login" ∉ kept) ↔
       ∀ w, w ∈ ["login"; "pay"] → PyStr.contains "/pay/login" w = true).
Proof.
  assert (H1 : (None ∉ [Some "/about"; Some "/pay/login"]) ∨ ["login"; "pay"] = [])
    by (left; by_decide).
  assert (H2 : Some "/pay/login" ∈ [Some "/about"; Some "/pay/login"]) by by_decide.
  assert (H3 : "/pay/login" ≠ "/") by by_decide.
  refine (conj H1 (conj H2 (conj H3 _))).
  exact (filter_retains_iff_some_word_absent ["login"; "pay"]
           [Some "/about"; Some "/pay/login"] "/pay/login" H1 H2 H3).
Defined.

(** C2: the rule does not hold of every candidate list.  Under the
    deny-list ["login"] the candidate "/about" of the list ["/about", None] is
    a string other than "/" and the deny-word "login" is not a substring of
    it, yet it is not retained: [word not in link] is evaluated before the
    test for [None], so the call raises [TypeError] at the [None] candidate
    and returns no set at all.  Without the [None] candidate the same link is
    retained. *)
Theorem filter_raises_beside_none :
  Some "/about" ∈ [Some "/about"; None] ∧
  "/about" ≠ "/" ∧
  (∃ w, w ∈ ["login"] ∧ PyStr.contains "/about" w = false) ∧
  clean_webpage_links ["login"] [Some "/about"; None] = Raise TypeError ∧
  (¬ ∃ kept, clean_webpage_links ["login"] [Some "/about"; None] = Ok kept ∧
             Some "/about" ∈ kept) ∧
  clean_webpage_links ["login"] [Some "/about"] = Ok {[Some "/about"]}.
Proof.
  split_and!.
  - by_decide.
  - by_decide.
  - exists "login". split; [by_decide | vm_compute; reflexivity].
  - vm_compute; reflexivity.
  - intros (kept & Hrun & _). vm_compute in Hrun. discriminate.
  - vm_compute; reflexivity.
Qed.

(** C3, as stated: with the deny-list ["login"] the filter applied to
    ["/about", "http://example.com/login", None] returns no set that holds
    the login link: it raises [TypeError] at the [None] candidate. *)
Lemma login_scenario_not_retained :
  clean_webpage_links ["login"]
    [Some "/about"; Some "http://example.com/login"; None] = Raise TypeError ∧
  ¬ ∃ kept,
      clean_webpage_links ["login"]
        [Some "/about"; Some "http://example.com/login"; None] = Ok kept ∧
      Some "http://example.com/login" ∈ kept.
Proof.
  split; [vm_compute; reflexivity |].
  intros (kept & Hrun & _). vm_compute in Hrun. discriminate.
Qed.

(** C3, amended: with the deny-list ["login"] the filter applied to the two
    string candidates "/about" and "http://example.com/login" returns exactly
    {"/about"}: the login link holds the only deny-word and is dropped.  In
    the run of the scenario (root "http://example.com", the root page linking
    to these two) frontier(1) is exactly {"/about"}. *)
Theorem login_scenario_keeps_about_only :
  clean_webpage_links ["login"] [Some "/about"; Some "http://example.com/login"]
    = Ok {[Some "/about"]} ∧
  filter_word_list (self Scenario.login_only) = ["login"] ∧
  get_all_links_from_page Scenario.example_env (Scenario.page 200 "root page")
    = [Some "/about"; Some "http://example.com/login"] ∧
  frontier Scenario.example_env Scenario.login_only 0 = Ok {["http://example.com"]} ∧
  frontier Scenario.example_env Scenario.login_only 1 = Ok {["/about"]}.
Proof. split_and!; vm_compute; reflexivity. Qed.

(** C4, as stated: it is not the case that the returned set never holds
    the empty string; the filter keeps it under the deny-list ["login"]. *)
Lemma filter_keeps_empty_string :
  clean_webpage_links ["login"] [Some ""] = Ok {[Some ""]} ∧
  ¬ ∀ (words : list string) (links : list candidate) (kept : gset candidate),
      clean_webpage_links words links = Ok kept →
      (None ∉ kept) ∧ (Some "" ∉ kept) ∧ (Some "/" ∉ kept).
Proof.
  assert (Hrun : clean_webpage_links ["login"] [Some ""] = Ok {[Some ""]})
    by (vm_compute; reflexivity).
  split; [done |]. intros Hclaim.
  destruct (Hclaim ["login"] [Some ""] {[Some ""]} Hrun) as (_ & Hempty & _).
  apply Hempty. set_solver.
Qed.

(** C4, amended: on every candidate list and deny-list for which the filter
    returns a set (no [None] candidate, or an empty deny-list), the set never
    holds [None] and never holds ["/"]; the empty string is not dropped: it is
    in the set exactly when it is a candidate and some deny-word is not
    empty. *)
Theorem filter_drops_none_and_slash (words : list string) (links : list candidate) :
  (None ∉ links) ∨ words = [] →
  ∃ kept, clean_webpage_links words links = Ok kept ∧
    (None ∉ kept) ∧ (Some "/" ∉ kept) ∧
    (Some "" ∈ kept ↔ Some "" ∈ links ∧ ∃ w, w ∈ words ∧ w ≠ "").
Proof.
  intros Hdom. destruct (clean_webpage_links_total words links Hdom) as [kept Hkept].
  exists kept. split; [done |]. split_and!.
  - rewrite (clean_webpage_links_elem _ _ _ Hkept). by intros (_ & w & _ & s & ? & _).
  - rewrite (clean_webpage_links_elem _ _ _ Hkept).
    intros (_ & w & _ & s & ? & ? & _). by simplify_eq.
  - rewrite (clean_webpage_links_elem _ _ _ Hkept). split.
    + intros (Hin & w & Hw & s & ? & _ & Hsub). simplify_eq. split; [done |].
      exists w. split; [done |]. intros ->. by rewrite contains_empty_word in Hsub.
    + intros (Hin & w & Hw & Hne). split; [done |]. exists w. split; [done |].
      exists "". split_and!; [done..|].
      destruct (PyStr.contains "" w) eqn:Hsub; [|done].
      by apply empty_contains in Hsub.
Qed.

Lemma filter_drops_none_and_slash_witness :
  ((None ∉ [Some ""; Some "/"; Some "/login"]) ∨ ["login"] = []) ∧
  ∃ kept, clean_webpage_links ["login"] [Some ""; Some "/"; Some "/login"] = Ok kept ∧
    (None ∉ kept) ∧ (Some "/" ∉ kept) ∧
    (Some "" ∈ kept ↔
       Some "" ∈ [Some ""; Some "/"; Some "/login"] ∧ ∃ w, w ∈ ["login"] ∧ w ≠ "").
Proof.
  assert (H : (None ∉ [Some ""; Some "/"; Some "/login"]) ∨ ["login"] = [])
    by (left; by_decide).
  refine (conj H _).
  exact (filter_drops_none_and_slash ["login"] [Some ""; Some "/"; Some "/login"] H).
Defined.

(** ** The scheduler *)

(** C1, at a run with indexing on and [pen_depth = 2]: the Edge batch
    uploaded while the root is processed, at fetch depth 0, carries 2, the
    [pen_depth] of the instance, in each of its rows, not the depth 0 at
    which the parent was fetched. *)
Theorem edge_batch_of_depth_0_records_pen_depth :
  let r := run_depth Scenario.example_env ∅ 0 Scenario.indexed in
  indexing_on (self Scenario.indexed) = true ∧
  pen_depth (self Scenario.indexed) = 2 ∧
  fetched (res_events r) = ["http://example.com"] ∧
  edge_rows (res_events r) =
    [(2, "http://example.com", "/about");
     (2, "http://example.com", "http://example.com/login")].
Proof. vm_compute. split_and!; reflexivity. Qed.

(** C5: in every run, finished or aborted, no link is passed to
    [session.get] twice; a fetched link was not visited when the run began
    and is visited when it ends; the visited set only grows; a parent already
    visited is skipped with no fetch, no upload and no change; a parent not
    yet visited is fetched once and is in the visited set whatever the fetch
    gives, also when the request raises. *)
Theorem each_link_fetched_at_most_once (env : Env) (w : World) :
  let r := run_spider env w in
  NoDup (fetched (res_events r)) ∧
  (∀ link, link ∈ fetched (res_events r) →
     (link ∉ visited w) ∧ link ∈ visited (res_world r)) ∧
  visited w ⊆ visited (res_world r) ∧
  (∀ acc p w0, p ∈ visited w0 →
     process_parent env acc p w0 = mkRes (Ok acc) w0 []) ∧
  (∀ acc p w0, p ∉ visited w0 →
     fetched (res_events (process_parent env acc p w0)) = [p] ∧
     visited (res_world (process_parent env acc p w0)) = {[p]} ∪ visited w0 ∧
     (session_get env p = None →
      process_parent env acc p w0 =
        mkRes (Raise RequestException) (mkWorld (visit p (self w0)) (files w0)) [EvGet p])).
Proof.
  intros r.
  destruct (holds_run_spider fetch_rel env w (process_parent_fetch_rel env)
              (finish_fetch_rel env)) as (Hnd & Hnew & Hvis).
  fold r in Hnd, Hnew, Hvis. split_and!.
  - done.
  - intros link Hin. split; [by apply Hnew |]. rewrite Hvis. set_solver.
  - rewrite Hvis. set_solver.
  - intros acc p w0 Hin.
    destruct (process_parent_step env acc p w0); done.
  - intros acc p w0 Hnv.
    destruct (process_parent_unvisited env acc p w0 Hnv) as [Hf Hv].
    split_and!; [done..|]. intros Hget.
    destruct (process_parent_step env acc p w0); simplify_eq; done.
Qed.

(** C6: frontier(0) is {root_site}, and whenever the run reaches depth
    d + 1, frontier(d + 1) is the union of the filtered child-link sets of the
    parents of frontier(d) that were fetched at depth d (not visited before
    it) with status 200 and read for links: a link is in frontier(d + 1)
    exactly when it is a filtered child of such a parent. *)
Theorem frontier_is_union_of_children (env : Env) (w : World) (d : nat)
    (F F' : gset string) :
  iter_ok env →
  frontier env w d = Ok F →
  frontier env w (S d) = Ok F' →
  frontier env w 0 = Ok {[root_site (self w)]} ∧
  ∀ c, c ∈ F' ↔
       ∃ p, p ∈ F ∧ (p ∉ visited (world_at env w d)) ∧ child_of env (self w) p c.
Proof.
  intros Hiter HF HF'. split; [done |]. intros c.
  unfold frontier in HF, HF'. rewrite run_depths_S in HF'.
  destruct (res_val (bind _ _ w)) as [children|] eqn:Hrun; [|done].
  apply bind_val_Ok in Hrun as (prev & Hprev & Hdepth).
  rewrite Hprev in HF. simplify_eq.
  unfold parent_level_links at 1. rewrite decide_False by done.
  fold (world_at env w d) in Hdepth.
  pose proof (holds_run_depths frame_rel env d w (process_parent_frame_rel env))
    as (Hroot&_&_&_&_&Hwords&_).
  fold (world_at env w d) in Hroot, Hwords.
  unfold run_depth in Hdepth. rewrite bind_get_self in Hdepth.
  rewrite (inner_loop_children env _ (iter_ok_NoDup env _ Hiter) _ _ _ Hdepth c).
  assert (parent_level_links (self (world_at env w d)) d prev
          = parent_level_links (self w) d prev) as ->.
  { unfold parent_level_links. by rewrite Hroot. }
  split.
  - intros [Hc|(p & Hp & Hnv & Hch)]; [set_solver |].
    exists p. rewrite iter_ok_elem in Hp by done.
    by rewrite child_of_filter in Hch by done.
  - intros (p & Hp & Hnv & Hch). right. exists p.
    rewrite iter_ok_elem by done. by rewrite child_of_filter by done.
Qed.

Lemma frontier_is_union_of_children_witness :
  iter_ok Scenario.example_env ∧
  frontier Scenario.example_env Scenario.login_only 0 = Ok {["http://example.com"]} ∧
  frontier Scenario.example_env Scenario.login_only 1 = Ok {["/about"]} ∧
  (frontier Scenario.example_env Scenario.login_only 0
     = Ok {[root_site (self Scenario.login_only)]} ∧
   ∀ c, c ∈ ({["/about"]} : gset string) ↔
        ∃ p, p ∈ ({["http://example.com"]} : gset string) ∧
             (p ∉ visited (world_at Scenario.example_env Scenario.login_only 0)) ∧
             child_of Scenario.example_env (self Scenario.login_only) p c).
Proof.
  assert (Hiter : iter_ok Scenario.example_env) by (intros X; reflexivity).
  assert (H0 : frontier Scenario.example_env Scenario.login_only 0
               = Ok {["http://example.com"]}) by (vm_compute; reflexivity).
  assert (H1 : frontier Scenario.example_env Scenario.login_only 1
               = Ok {["/about"]}) by (vm_compute; reflexivity).
  refine (conj Hiter (conj H0 (conj H1 _))).
  exact (frontier_is_union_of_children Scenario.example_env Scenario.login_only 0
           {["http://example.com"]} {["/about"]} Hiter H0 H1).
Defined.

(** C7: a spider constructed without an [indexing_definitions_obj] makes no
    call to the relational sink in any run, but no run of it completes
    normally: the [dispose] call after the loop reads the attribute that was
    never bound. *)
Theorem run_without_indexing_raises (env : Env) (root : string) (depth : Z)
    (save_path : string) (fs : gmap string string) :
  let r := run_spider env (mkWorld (init root depth save_path None) fs) in
  sink_calls (res_events r) = [] ∧ res_val r ≠ Ok tt.
Proof.
  intros r. set (w := mkWorld _ fs) in r.
  assert (Hoff : indexing_off w) by done.
  split.
  - by destruct (holds_run_spider quiet_rel env w (process_parent_quiet_rel env)
                   (finish_quiet_rel env) Hoff).
  - subst r. unfold run_spider. rewrite bind_get_self. intros Hok.
    apply bind_val_Ok in Hok as (children & Hloop & Hfin).
    destruct (holds_run_depths quiet_rel env (Z.to_nat (pen_depth (self w))) w
                (process_parent_quiet_rel env) Hoff) as [[Hon Hobj] _].
    rewrite finish_run, Hon, Hobj in Hfin. done.
Qed.

(** The run of C7 on the site of the scenario: three fetches, nothing sent
    to the sink, and [AttributeError] at the [dispose] call. *)
Example run_without_indexing_raises_example :
  let r := run_spider Scenario.example_env Scenario.not_indexed in
  res_val r = Raise AttributeError ∧
  res_events r = [EvGet "http://example.com"; EvGet "/about";
                  EvGet "http://example.com/login"] ∧
  sink_calls (res_events r) = [].
Proof. vm_compute. split_and!; reflexivity. Qed.

(** C10: a parent whose lowercase form ends with "xlsx" or "xls" and that
    is not yet visited is marked visited (it is in the visited set afterwards,
    which grows by this link alone) and fetched; whatever the response, also a
    200, nothing is written to the directory, the children accumulated for the
    next frontier are unchanged, and the fetch is the only event: no Edge
    batch is uploaded. *)
Theorem spreadsheet_fetched_not_saved (env : Env) (acc : gset string) (p : string)
    (w : World) :
  PyStr.endswith (PyStr.lower p) "xlsx" = true ∨
  PyStr.endswith (PyStr.lower p) "xls" = true →
  p ∉ visited w →
  let r := process_parent env acc p w in
  res_events r = [EvGet p] ∧
  res_world r = mkWorld (visit p (self w)) (files w) ∧
  res_val r = match session_get env p with
              | Some _ => Ok acc
              | None => Raise RequestException
              end ∧
  p ∈ visited (res_world r) ∧
  visited (res_world r) = {[p]} ∪ visited w ∧
  fetched (res_events r) = [p] ∧
  files (res_world r) = files w.
Proof.
  intros Hsheet Hnv r.
  assert (Hs : is_sheet p = true).
  { unfold is_sheet. destruct Hsheet as [->| ->]; [done | apply orb_true_r]. }
  subst r.
  destruct (process_parent_unvisited env acc p w Hnv) as [Hfetched Hvisited].
  assert (Hrun : res_events (process_parent env acc p w) = [EvGet p] ∧
                 res_world (process_parent env acc p w)
                   = mkWorld (visit p (self w)) (files w) ∧
                 res_val (process_parent env acc p w)
                   = match session_get env p with
                     | Some _ => Ok acc
                     | None => Raise RequestException
                     end).
  { destruct (process_parent_step env acc p w) as
      [Hv|Hv Hget|r Hv Hget Hst|r Hv Hget Hst Hsh|r fs e Hv Hget Hst Hsh Hcl
       |r fs kept Hv Hget Hst Hsh Hcl Hon|r fs kept Hv Hget Hst Hsh Hcl Hon Hobj
       |r fs kept obj Hv Hget Hst Hsh Hcl Hon Hobj];
      simpl; try congruence; try done; by rewrite Hget. }
  destruct Hrun as (Hevs & Hworld & Hval).
  split_and!; [done | done | done | | done | done |].
  - rewrite Hvisited. set_solver.
  - by rewrite Hworld.
Qed.

Lemma spreadsheet_fetched_not_saved_witness :
  (PyStr.endswith (PyStr.lower "/Prices.XLSX") "xlsx" = true ∨
   PyStr.endswith (PyStr.lower "/Prices.XLSX") "xls" = true) ∧
  ("/Prices.XLSX" ∉ visited Scenario.indexed) ∧
  let r := process_parent Scenario.sheet_env {["/menu"]} "/Prices.XLSX" Scenario.indexed in
  res_events r = [EvGet "/Prices.XLSX"] ∧
  res_world r = mkWorld (visit "/Prices.XLSX" (self Scenario.indexed)) (files Scenario.indexed) ∧
  res_val r = match session_get Scenario.sheet_env "/Prices.XLSX" with
              | Some _ => Ok {["/menu"]}
              | None => Raise RequestException
              end ∧
  "/Prices.XLSX" ∈ visited (res_world r) ∧
  visited (res_world r) = {["/Prices.XLSX"]} ∪ visited Scenario.indexed ∧
  fetched (res_events r) = ["/Prices.XLSX"] ∧
  files (res_world r) = files Scenario.indexed.
Proof.
  assert (H1 : PyStr.endswith (PyStr.lower "/Prices.XLSX") "xlsx" = true ∨
               PyStr.endswith (PyStr.lower "/Prices.XLSX") "xls" = true)
    by (left; vm_compute; reflexivity).
  assert (H2 : "/Prices.XLSX" ∉ visited Scenario.indexed) by by_decide.
  refine (conj H1 (conj H2 _)).
  exact (spreadsheet_fetched_not_saved Scenario.sheet_env {["/menu"]} "/Prices.XLSX"
           Scenario.indexed H1 H2).
Defined.


(** ** Persistence *)

(** C8, as stated: saving the root page of the scenario as text a second
    time does not leave the directory as the first save did. *)
Lemma saving_text_again_appends :
  let r := Scenario.page 200 "root page" in
  let once := save_webpage_as_text Scenario.example_env "http://example.com" r
                Scenario.not_indexed in
  let twice := save_webpage_as_text Scenario.example_env "http://example.com" r
                 (res_world once) in
  let path := "/tmp/http:__example.comhttp://example.comhttp://example.com.txt.txt" in
  let record := "root_site:http://example.com" +:+ PyStr.newline +:+
                "web_url:http://example.com" +:+ PyStr.newline +:+ "root page" in
  files (res_world once) = {[path := record]} ∧
  files (res_world twice) = {[path := record +:+ record]} ∧
  files (res_world twice) ≠ files (res_world once).
Proof.
  split_and!; [vm_compute; reflexivity | vm_compute; reflexivity |].
  vm_compute. discriminate.
Qed.

(** C8, amended: persisting the same page again writes to the same file,
    the one named by [generate_output_file_name] for (root_site, link), and
    creates no other.  A PDF is overwritten: the second save leaves the
    directory as the first one did.  A text page is not: the file is opened
    in append mode, so the second save adds the header and the body once more
    after the content the first save left. *)
Theorem saving_again_same_file (env : Env) (web_url : string) (r : Response) (w : World) :
  let text1 := save_webpage_as_text env web_url r w in
  let text2 := save_webpage_as_text env web_url r (res_world text1) in
  let pdf1 := save_webpage_as_pdf env web_url r w in
  let pdf2 := save_webpage_as_pdf env web_url r (res_world pdf1) in
  let record := "root_site:" +:+ root_site (self w) +:+ PyStr.newline +:+
                "web_url:" +:+ web_url +:+ PyStr.newline +:+ text r in
  (∃ name,
     generate_output_file_name env (self w) web_url "txt" = Ok name ∧
     let path := raw_files_save_path (self w) +:+ name +:+ ".txt" in
     let old := default "" (files w !! path) in
     text1 = mkRes (Ok tt) (mkWorld (self w) (<[path := old +:+ record]> (files w))) [] ∧
     text2 = mkRes (Ok tt)
               (mkWorld (self w) (<[path := (old +:+ record) +:+ record]> (files w))) []) ∧
  (∃ name,
     generate_output_file_name env (self w) web_url "pdf" = Ok name ∧
     let path := raw_files_save_path (self w) +:+ name +:+ ".pdf" in
     pdf1 = mkRes (Ok tt) (mkWorld (self w) (<[path := content r]> (files w))) [] ∧
     pdf2 = pdf1).
Proof.
  intros text1 text2 pdf1 pdf2 record. split.
  - eexists. split; [reflexivity |]. intros path old.
    assert (H1 : text1 = mkRes (Ok tt)
                           (mkWorld (self w) (<[path := old +:+ record]> (files w))) []).
    { subst text1. by rewrite (save_webpage_as_text_files env web_url r w _ eq_refl). }
    split; [done |]. subst text2. rewrite H1. simpl.
    erewrite save_webpage_as_text_files by reflexivity. simpl.
    fold path. by rewrite lookup_insert_eq, insert_insert_eq.
  - eexists. split; [reflexivity |]. intros path.
    assert (H1 : pdf1 = mkRes (Ok tt)
                          (mkWorld (self w) (<[path := content r]> (files w))) []).
    { subst pdf1. by rewrite (save_webpage_as_pdf_files env web_url r w _ eq_refl). }
    split; [done |]. subst pdf2. rewrite H1 at 1. simpl.
    erewrite save_webpage_as_pdf_files by reflexivity. simpl.
    fold path. by rewrite insert_insert_eq.
Qed.

(** C9: for two instances with the same [root_site], whatever their other
    attributes, and a flag whose lowercase form is "pdf" or "txt", two calls
    of [generate_output_file_name] with the same link and flag return the
    same name. *)
Theorem generate_output_file_name_deterministic (env : Env) (sp1 sp2 : WebSpider)
    (webpage file_type_flag : string) :
  root_site sp1 = root_site sp2 →
  PyStr.lower file_type_flag ∈ ["pdf"; "txt"] →
  ∃ name,
    generate_output_file_name env sp1 webpage file_type_flag = Ok name ∧
    generate_output_file_name env sp2 webpage file_type_flag = Ok name.
Proof.
  intros Hroot Hflag. unfold generate_output_file_name.
  rewrite bool_decide_eq_true_2 by done. rewrite Hroot. by eexists.
Qed.

Lemma generate_output_file_name_deterministic_witness :
  root_site (self Scenario.indexed) = root_site (visit "/about" (self Scenario.not_indexed)) ∧
  PyStr.lower "PDF" ∈ ["pdf"; "txt"] ∧
  ∃ name,
    generate_output_file_name Scenario.example_env (self Scenario.indexed)
      "/menu.pdf" "PDF" = Ok name ∧
    generate_output_file_name Scenario.example_env
      (visit "/about" (self Scenario.not_indexed)) "/menu.pdf" "PDF" = Ok name.
Proof.
  assert (H1 : root_site (self Scenario.indexed)
               = root_site (visit "/about" (self Scenario.not_indexed))) by reflexivity.
  assert (H2 : PyStr.lower "PDF" ∈ ["pdf"; "txt"]) by by_decide.
  refine (conj H1 (conj H2 _)).
  exact (generate_output_file_name_deterministic Scenario.example_env
           (self Scenario.indexed) (visit "/about" (self Scenario.not_indexed))
           "/menu.pdf" "PDF" H1 H2).
Defined.


(** * Further properties of the code *)

(** ** The link filter and the links of a page *)

Lemma clean_loop_none (pairs : list (candidate * string)) (w : string) :
  (None, w) ∈ pairs → ∀ acc, clean_loop pairs acc = Raise TypeError.
Proof.
  induction pairs as [|[link word] rest IH]; intros Hin acc.
  - by apply elem_of_nil in Hin.
  - simpl. destruct link as [s|]; [|done]. simpl.
    apply elem_of_cons in Hin as [Heq|Hin]; [done |].
    destruct (_ && _); by apply IH.
Qed.

Lemma clean_webpage_links_none_raises (words : list string) (links : list candidate) :
  None ∈ links → words ≠ [] → clean_webpage_links words links = Raise TypeError.
Proof.
  intros Hnone Hwords. destruct words as [|w words]; [done |].
  unfold clean_webpage_links.
  rewrite (clean_loop_none _ w); [done |].
  apply elem_of_product. split; [done | apply list_elem_of_here].
Qed.

(** X1: the link filter raises exactly when a [None] candidate meets a
    non-empty deny-list, and [TypeError] is the only exception it raises. *)
Theorem filter_raises_exactly_on_none (words : list string) (links : list candidate) :
  (clean_webpage_links words links = Raise TypeError ↔ None ∈ links ∧ words ≠ []) ∧
  (∀ e, clean_webpage_links words links = Raise e → e = TypeError).
Proof.
  split; [split |].
  - intros Hrun. by apply clean_webpage_links_raises in Hrun as (_ & ? & ?).
  - intros [? ?]. by apply clean_webpage_links_none_raises.
  - intros e Hrun. by apply clean_webpage_links_raises in Hrun as (? & _).
Qed.

(** X2: the result of the filter, a set or the exception, depends only on
    which candidates occur in the list, not on their order or repetitions. *)
Theorem filter_same_candidates_same_result (words : list string)
    (links links' : list candidate) :
  (∀ c, c ∈ links ↔ c ∈ links') →
  clean_webpage_links words links = clean_webpage_links words links'.
Proof.
  intros Hsame.
  destruct (clean_webpage_links words links) as [kept|e] eqn:Hrun;
    destruct (clean_webpage_links words links') as [kept'|e'] eqn:Hrun'.
  - f_equal. apply set_eq. intros c.
    rewrite (clean_webpage_links_elem _ _ _ Hrun), (clean_webpage_links_elem _ _ _ Hrun').
    by rewrite Hsame.
  - apply clean_webpage_links_raises in Hrun' as (_ & Hnone & Hwords).
    rewrite <-Hsame in Hnone.
    rewrite clean_webpage_links_none_raises in Hrun by done. done.
  - apply clean_webpage_links_raises in Hrun as (_ & Hnone & Hwords).
    rewrite Hsame in Hnone.
    rewrite clean_webpage_links_none_raises in Hrun' by done. done.
  - apply clean_webpage_links_raises in Hrun as (-> & _).
    by apply clean_webpage_links_raises in Hrun' as (-> & _).
Qed.

Lemma filter_same_candidates_same_result_witness :
  (∀ c, c ∈ [Some "/a"; Some "/b"; Some "/a"] ↔ c ∈ [Some "/b"; Some "/a"]) ∧
  clean_webpage_links ["b"] [Some "/a"; Some "/b"; Some "/a"]
    = clean_webpage_links ["b"] [Some "/b"; Some "/a"].
Proof.
  assert (H : ∀ c, c ∈ [Some "/a"; Some "/b"; Some "/a"] ↔ c ∈ [Some "/b"; Some "/a"])
    by (intros c; rewrite !elem_of_cons; tauto).
  refine (conj H _).
  exact (filter_same_candidates_same_result ["b"] [Some "/a"; Some "/b"; Some "/a"]
           [Some "/b"; Some "/a"] H).
Defined.

(** X3: on string candidates, every link retained under a deny-list is
    retained under any longer one: adding deny-words never drops a link. *)
Theorem filter_more_words_keeps_more (words words' : list string)
    (links : list candidate) :
  (None ∉ links) →
  (∀ w, w ∈ words → w ∈ words') →
  ∃ kept kept',
    clean_webpage_links words links = Ok kept ∧
    clean_webpage_links words' links = Ok kept' ∧
    kept ⊆ kept'.
Proof.
  intros Hstr Hsub.
  destruct (clean_webpage_links_total words links (or_introl Hstr)) as [kept Hkept].
  destruct (clean_webpage_links_total words' links (or_introl Hstr)) as [kept' Hkept'].
  exists kept, kept'. split_and!; [done..|]. intros c.
  rewrite (clean_webpage_links_elem _ _ _ Hkept), (clean_webpage_links_elem _ _ _ Hkept').
  intros (Hin & w & Hw & Hk). split; [done |]. exists w. split; [by apply Hsub | done].
Qed.

Lemma filter_more_words_keeps_more_witness :
  (None ∉ [Some "/login"; Some "/about"]) ∧
  (∀ w, w ∈ ["login"] → w ∈ ["login"; "pay"]) ∧
  ∃ kept kept',
    clean_webpage_links ["login"] [Some "/login"; Some "/about"] = Ok kept ∧
    clean_webpage_links ["login"; "pay"] [Some "/login"; Some "/about"] = Ok kept' ∧
    kept ⊆ kept'.
Proof.
  assert (H1 : None ∉ [Some "/login"; Some "/about"]) by by_decide.
  assert (H2 : ∀ w, w ∈ ["login"] → w ∈ ["login"; "pay"])
    by (intros w; rewrite !elem_of_cons; tauto).
  refine (conj H1 (conj H2 _)).
  exact (filter_more_words_keeps_more ["login"] ["login"; "pay"]
           [Some "/login"; Some "/about"] H1 H2).
Defined.

Example filter_more_words_example :
  clean_webpage_links ["login"] [Some "/login"; Some "/about"] = Ok {[Some "/about"]} ∧
  clean_webpage_links ["login"; "pay"] [Some "/login"; Some "/about"]
    = Ok {[Some "/login"; Some "/about"]}.
Proof. split; vm_compute; reflexivity. Qed.

(** X4: with an empty deny-list the filter returns the empty set for every
    candidate list, [None] candidates included. *)
Theorem filter_empty_deny_list_drops_all (links : list candidate) :
  clean_webpage_links [] links = Ok ∅.
Proof.
  destruct (clean_webpage_links_total [] links (or_intror eq_refl)) as [kept Hkept].
  rewrite Hkept. f_equal. apply set_eq. intros c.
  rewrite (clean_webpage_links_elem _ _ _ Hkept). split; [|set_solver].
  intros (_ & w & Hw & _). by apply elem_of_nil in Hw.
Qed.

Lemma foldl_snoc_map {A B} (f : A → B) (xs : list A) (acc : list B) :
  foldl (λ l x, l ++ [f x]) acc xs = acc ++ (f <$> xs).
Proof.
  revert acc. induction xs as [|x xs IH]; intros acc; simpl.
  - by rewrite app_nil_r.
  - by rewrite IH, <-app_assoc.
Qed.

(** X5: [get_all_links_from_page] returns the [href] of every anchor the
    parser finds, in the order found, [None] kept: one link per anchor. *)
Theorem links_from_page_are_the_hrefs (env : Env) (r : Response) :
  get_all_links_from_page env r = href <$> find_all_a env (content r) ∧
  length (get_all_links_from_page env r) = length (find_all_a env (content r)).
Proof.
  unfold get_all_links_from_page. rewrite foldl_snoc_map. simpl.
  split; [done | by rewrite length_fmap].
Qed.

(** ** File names, and the frame of a run *)

Lemma contains_char (s : string) (a : ascii) :
  PyStr.contains s (String a "") = true ↔ a ∈ list_ascii_of_string s.
Proof.
  induction s as [|b s IH]; simpl.
  - split; [done | by intros ?%elem_of_nil].
  - rewrite elem_of_cons, orb_true_iff, IH. case_decide; naive_solver.
Qed.

Lemma replace_chars (old new : ascii) (s : string) (a : ascii) :
  a ∈ list_ascii_of_string (PyStr.replace old new s) →
  (a = new ∧ old ∈ list_ascii_of_string s) ∨ (a ≠ old ∧ a ∈ list_ascii_of_string s).
Proof.
  induction s as [|b s IH]; simpl; [by intros ?%elem_of_nil |].
  rewrite !elem_of_cons. intros [->|Hin].
  - case_decide; naive_solver.
  - destruct (IH Hin); naive_solver.
Qed.

Lemma replace_length (old new : ascii) (s : string) :
  String.length (PyStr.replace old new s) = String.length s.
Proof. induction s; simpl; congruence. Qed.

Lemma replace_map (old new : ascii) (s : string) :
  list_ascii_of_string (PyStr.replace old new s)
  = (λ a, if decide (a = old) then new else a) <$> list_ascii_of_string s.
Proof. induction s as [|b s IH]; simpl; [done | by rewrite IH]. Qed.

(** X6: [generate_output_file_name] raises [ValueError] exactly when the
    lowercase flag is neither "pdf" nor "txt"; otherwise the name is the root
    site in which each slash and each backslash is replaced by an underscore
    and every other character is kept in its place (so the prefix has the
    length of the root site and no separator left), followed by the digest of
    root site and link, a dot and the lowercase flag. *)
Theorem generated_name_shape (env : Env) (sp : WebSpider) (webpage flag : string) :
  match generate_output_file_name env sp webpage flag with
  | Ok name =>
      PyStr.lower flag ∈ ["pdf"; "txt"] ∧
      ∃ cleaned_root,
        name = cleaned_root +:+ md5_hexdigest env (root_site sp +:+ webpage) +:+
               "." +:+ PyStr.lower flag ∧
        list_ascii_of_string cleaned_root
          = (λ a : ascii, if bool_decide (a = "/"%char ∨ a = "\"%char) then "_"%char else a)
              <$> list_ascii_of_string (root_site sp) ∧
        (∀ i a, list_ascii_of_string (root_site sp) !! i = Some a →
           list_ascii_of_string cleaned_root !! i
           = Some (if bool_decide (a = "/"%char ∨ a = "\"%char) then "_"%char else a)) ∧
        String.length cleaned_root = String.length (root_site sp) ∧
        PyStr.contains cleaned_root "/" = false ∧
        PyStr.contains cleaned_root "\" = false
  | Raise e => e = ValueError ∧ PyStr.lower flag ∉ ["pdf"; "txt"]
  end.
Proof.
  unfold generate_output_file_name. case_bool_decide as Hflag; [|done].
  split; [done |]. eexists. split; [reflexivity |].
  assert (Hmap : list_ascii_of_string
                   (PyStr.replace "/" "_" (PyStr.replace "\" "_" (root_site sp)))
                 = (λ a : ascii,
                      if bool_decide (a = "/"%char ∨ a = "\"%char) then "_"%char else a)
                     <$> list_ascii_of_string (root_site sp)).
  { rewrite !replace_map, <-list_fmap_compose. apply list_fmap_ext.
    intros _ a _. simpl. repeat case_decide; case_bool_decide; naive_solver. }
  split_and!.
  - done.
  - intros i a Hi. by rewrite Hmap, list_lookup_fmap, Hi.
  - by rewrite !replace_length.
  - apply not_true_is_false. intros Hin%contains_char.
    apply replace_chars in Hin as [[? _]|[? _]]; done.
  - apply not_true_is_false. intros Hin%contains_char.
    apply replace_chars in Hin as [[? _]|[_ Hin]]; [done |].
    apply replace_chars in Hin as [[? _]|[? _]]; done.
Qed.

(** X7: a run, finished or aborted, changes no attribute of the instance
    other than [unique_links_set]. *)
Theorem run_keeps_configuration (env : Env) (w : World) :
  let w' := res_world (run_spider env w) in
  root_site (self w') = root_site (self w) ∧
  pen_depth (self w') = pen_depth (self w) ∧
  raw_files_save_path (self w') = raw_files_save_path (self w) ∧
  indexing_definitions_obj (self w') = indexing_definitions_obj (self w) ∧
  indexing_on (self w') = indexing_on (self w) ∧
  filter_word_list (self w') = filter_word_list (self w).
Proof.
  intros w'. destruct (run_spider_frame_rel env w) as (?&?&?&?&?&?&_). done.
Qed.

(** X8: with [pen_depth] zero or negative the loop is not entered: the run
    is the statements after the loop, it fetches nothing and changes no
    state. *)
Theorem run_with_no_depth_only_finishes (env : Env) (w : World) :
  pen_depth (self w) ≤ 0 →
  run_spider env w = finish env w ∧
  fetched (res_events (run_spider env w)) = [] ∧
  res_world (run_spider env w) = w.
Proof.
  intros Hdepth.
  assert (Hrun : run_spider env w = finish env w).
  { rewrite run_spider_unfold. rewrite Z2Nat.nonpos by done.
    unfold run_depths. simpl. by rewrite bind_ret. }
  rewrite Hrun, finish_run.
  split; [done |].
  destruct (indexing_on (self w)); destruct (indexing_definitions_obj (self w)); done.
Qed.

Lemma run_with_no_depth_only_finishes_witness :
  pen_depth (self Cases.no_depth) ≤ 0 ∧
  run_spider Scenario.example_env Cases.no_depth
    = finish Scenario.example_env Cases.no_depth ∧
  fetched (res_events (run_spider Scenario.example_env Cases.no_depth)) = [] ∧
  res_world (run_spider Scenario.example_env Cases.no_depth) = Cases.no_depth.
Proof.
  assert (H : pen_depth (self Cases.no_depth) ≤ 0) by (vm_compute; discriminate).
  refine (conj H _).
  exact (run_with_no_depth_only_finishes Scenario.example_env Cases.no_depth H).
Defined.

Lemma imap_pairs_fst {A} (l : list A) (k : nat) :
  (imap (λ i x, (k + i, x)%nat) l).*1 = seq k (length l).
Proof.
  revert k. induction l as [|x l IH]; intros k; simpl; [done |].
  f_equal; [lia |]. rewrite <-(IH (S k)). f_equal. apply imap_ext. intros; simpl.
  f_equal. lia.
Qed.

Lemma imap_pairs_snd {A} (l : list A) (f : nat → nat) :
  (imap (λ i x, (f i, x)) l).*2 = l.
Proof.
  revert f. induction l as [|x l IH]; intros f; simpl; [done |].
  f_equal. apply (IH (f ∘ S)).
Qed.

(** X9: the unique-links frame numbers the rows 0, 1, ... and names each
    link of [unique_links_set] exactly once. *)
Theorem unique_links_frame_numbers_each_link (env : Env) (sp : WebSpider) :
  iter_ok env →
  ∃ rows,
    create_unique_links_df env sp = UniqueLinksDF rows ∧
    rows.*1 = seq 0 (size (unique_links_set sp)) ∧
    rows.*2 ≡ₚ elements (unique_links_set sp).
Proof.
  intros Hiter. eexists. split; [reflexivity |]. split.
  - rewrite (imap_pairs_fst _ 0). f_equal. unfold size, set_size. simpl.
    by rewrite (Hiter (unique_links_set sp)).
  - rewrite imap_pairs_snd. apply Hiter.
Qed.

Lemma unique_links_frame_numbers_each_link_witness :
  iter_ok Scenario.example_env ∧
  ∃ rows,
    create_unique_links_df Scenario.example_env
      (visit "/about" (visit "http://example.com" (self Scenario.indexed)))
      = UniqueLinksDF rows ∧
    rows.*1 = seq 0 (size (unique_links_set
                (visit "/about" (visit "http://example.com" (self Scenario.indexed))))) ∧
    rows.*2 ≡ₚ elements (unique_links_set
                (visit "/about" (visit "http://example.com" (self Scenario.indexed)))).
Proof.
  assert (H : iter_ok Scenario.example_env) by (intros X; reflexivity).
  refine (conj H _).
  exact (unique_links_frame_numbers_each_link Scenario.example_env
           (visit "/about" (visit "http://example.com" (self Scenario.indexed))) H).
Defined.

(** ** Runs that stop after the root *)

Global Instance no_dispose_rel_trace : TraceRel no_dispose_rel.
Proof.
  split.
  - intros w. unfold no_dispose_rel. by intros ?%elem_of_nil.
  - intros w1 e1 w2 e2 w3. unfold no_dispose_rel. rewrite elem_of_app. tauto.
Qed.

Lemma process_parent_no_dispose env acc p w :
  holds no_dispose_rel (process_parent env acc p) w.
Proof.
  unfold holds, no_dispose_rel. destruct (process_parent_step env acc p w); simpl;
    rewrite ?elem_of_cons, ?elem_of_nil; naive_solver.
Qed.

Lemma bind_ret_r {A} (m : M A) w : bind m (λ a, ret a) w = m w.
Proof.
  unfold bind, ret, after. destruct (m w) as [[a|e] w' evs]; simpl; [|done].
  by rewrite app_nil_r.
Qed.

Lemma foldM_singleton {A B} (body : A → B → M A) a x w :
  foldM body a [x] w = body a x w.
Proof. simpl. apply bind_ret_r. Qed.

Lemma iter_ok_empty env : iter_ok env → set_iter env ∅ = [].
Proof.
  intros Hiter. apply Permutation_nil_r. rewrite (Hiter ∅). by rewrite elements_empty.
Qed.

Lemma iter_ok_singleton env x : iter_ok env → set_iter env {[x]} = [x].
Proof.
  intros Hiter. apply Permutation_singleton_r. rewrite (Hiter {[x]}).
  by rewrite elements_singleton.
Qed.

(** Depth 0 processes the root alone. *)
Lemma run_depth_root env prev w :
  iter_ok env →
  run_depth env prev 0 w = process_parent env ∅ (root_site (self w)) w.
Proof.
  intros Hiter. unfold run_depth. rewrite bind_get_self.
  unfold parent_level_links. simpl. rewrite iter_ok_singleton by done.
  apply foldM_singleton.
Qed.

(** A depth with no parent does nothing, and so do the depths after it. *)
Lemma run_depth_idle env d w :
  iter_ok env → d ≠ 0%nat → run_depth env ∅ d w = mkRes (Ok ∅) w [].
Proof.
  intros Hiter Hd. unfold run_depth. rewrite bind_get_self.
  unfold parent_level_links. rewrite decide_False by done.
  by rewrite iter_ok_empty.
Qed.

Lemma run_depths_idle env k d w :
  iter_ok env → d ≠ 0%nat →
  foldM (run_depth env) ∅ (seq d k) w = mkRes (Ok ∅) w [].
Proof.
  intros Hiter. revert d. induction k as [|k IH]; intros d Hd; simpl; [done |].
  erewrite bind_Ok by (by apply run_depth_idle). rewrite after_nil. by apply IH.
Qed.

(** The loop, by its first iteration. *)
Lemma run_depths_first env k w :
  iter_ok env →
  run_depths env (S k) w =
    bind (process_parent env ∅ (root_site (self w)))
         (λ children, foldM (run_depth env) children (seq 1 k)) w.
Proof.
  intros Hiter. unfold run_depths. simpl. unfold bind.
  by rewrite run_depth_root.
Qed.

Lemma run_of_visited_root (env : Env) (w : World) :
  iter_ok env →
  root_site (self w) ∈ visited w →
  run_spider env w = finish env w.
Proof.
  intros Hiter Hroot. rewrite run_spider_unfold.
  assert (Hloop : ∀ n, run_depths env n w = mkRes (Ok ∅) w []).
  { intros [|k]; [done |]. rewrite run_depths_first by done.
    erewrite bind_Ok.
    2: { by destruct (process_parent_step env ∅ (root_site (self w)) w). }
    rewrite after_nil. by apply run_depths_idle. }
  erewrite bind_Ok by apply Hloop. apply after_nil.
Qed.

(** X10: when the root is not yet visited and answers a status other than
    200, a run of any positive depth fetches the root and nothing else, writes
    no file, adds the root and nothing else to the visited set, and goes on to
    the statements after the loop. *)
Theorem run_stops_at_unavailable_root (env : Env) (w : World) (r : Response) :
  iter_ok env →
  0 < pen_depth (self w) →
  root_site (self w) ∉ visited w →
  session_get env (root_site (self w)) = Some r →
  status_code r ≠ 200 →
  let w' := mkWorld (visit (root_site (self w)) (self w)) (files w) in
  run_spider env w = after [EvGet (root_site (self w))] (finish env w') ∧
  fetched (res_events (run_spider env w)) = [root_site (self w)] ∧
  res_world (run_spider env w) = w' ∧
  visited (res_world (run_spider env w)) = {[root_site (self w)]} ∪ visited w ∧
  files (res_world (run_spider env w)) = files w.
Proof.
  intros Hiter Hdepth Hroot Hget Hstatus w'.
  assert (Hrun : run_spider env w = after [EvGet (root_site (self w))] (finish env w')).
  { rewrite run_spider_unfold.
    destruct (Z.to_nat (pen_depth (self w))) as [|k] eqn:Hk; [lia |].
    erewrite bind_Ok; [reflexivity |].
    rewrite run_depths_first by done.
    erewrite bind_Ok.
    2: { destruct (process_parent_step env ∅ (root_site (self w)) w);
           simplify_eq; try done; reflexivity. }
    rewrite run_depths_idle by done. reflexivity. }
  rewrite Hrun, finish_run. split; [done |].
  destruct (indexing_on (self w')); destruct (indexing_definitions_obj (self w')); done.
Qed.

Lemma run_stops_at_unavailable_root_witness :
  iter_ok Cases.down_env ∧
  0 < pen_depth (self Scenario.indexed) ∧
  (root_site (self Scenario.indexed) ∉ visited Scenario.indexed) ∧
  session_get Cases.down_env (root_site (self Scenario.indexed))
    = Some (Scenario.page 404 "") ∧
  status_code (Scenario.page 404 "") ≠ 200 ∧
  let w' := mkWorld (visit (root_site (self Scenario.indexed)) (self Scenario.indexed))
              (files Scenario.indexed) in
  run_spider Cases.down_env Scenario.indexed
    = after [EvGet (root_site (self Scenario.indexed))] (finish Cases.down_env w') ∧
  fetched (res_events (run_spider Cases.down_env Scenario.indexed))
    = [root_site (self Scenario.indexed)] ∧
  res_world (run_spider Cases.down_env Scenario.indexed) = w' ∧
  visited (res_world (run_spider Cases.down_env Scenario.indexed))
    = {[root_site (self Scenario.indexed)]} ∪ visited Scenario.indexed ∧
  files (res_world (run_spider Cases.down_env Scenario.indexed)) = files Scenario.indexed.
Proof.
  assert (H1 : iter_ok Cases.down_env) by (intros X; reflexivity).
  assert (H2 : 0 < pen_depth (self Scenario.indexed)) by (vm_compute; reflexivity).
  assert (H3 : root_site (self Scenario.indexed) ∉ visited Scenario.indexed) by by_decide.
  assert (H4 : session_get Cases.down_env (root_site (self Scenario.indexed))
               = Some (Scenario.page 404 "")) by reflexivity.
  assert (H5 : status_code (Scenario.page 404 "") ≠ 200) by (vm_compute; discriminate).
  refine (conj H1 (conj H2 (conj H3 (conj H4 (conj H5 _))))).
  exact (run_stops_at_unavailable_root Cases.down_env Scenario.indexed
           (Scenario.page 404 "") H1 H2 H3 H4 H5).
Defined.

Lemma bind_events {A B} (m : M A) (k : A → M B) w :
  ∃ more, res_events (bind m k w) = res_events (m w) ++ more.
Proof.
  unfold bind. destruct (res_val (m w)); simpl; [by eexists |].
  exists []. by rewrite app_nil_r.
Qed.

(** The root is visited after a run that enters its loop. *)
Lemma root_visited_after_run env w :
  iter_ok env → 0 < pen_depth (self w) →
  root_site (self w) ∈ visited (res_world (run_spider env w)).
Proof.
  intros Hiter Hdepth.
  destruct (holds_run_spider fetch_rel env w (process_parent_fetch_rel env)
              (finish_fetch_rel env)) as (_ & _ & ->).
  destruct (decide (root_site (self w) ∈ visited w)) as [Hv|Hv]; [set_solver |].
  apply elem_of_union_l, elem_of_list_to_set.
  rewrite run_spider_unfold.
  destruct (Z.to_nat (pen_depth (self w))) as [|k] eqn:Hk; [lia |].
  destruct (bind_events (run_depths env (S k)) (λ _, finish env) w) as [more ->].
  rewrite run_depths_first by done.
  destruct (bind_events (process_parent env ∅ (root_site (self w)))
              (λ children, foldM (run_depth env) children (seq 1 k)) w) as [more' ->].
  rewrite !fetched_app.
  destruct (process_parent_unvisited env ∅ _ w Hv) as [-> _]. set_solver.
Qed.

(** X11: a second run on the same instance fetches nothing and changes
    nothing: the root is marked visited by the first run, so only the
    statements after the loop are executed. *)
Theorem second_run_fetches_nothing (env : Env) (w : World) :
  iter_ok env →
  0 < pen_depth (self w) →
  let w1 := res_world (run_spider env w) in
  run_spider env w1 = finish env w1 ∧
  fetched (res_events (run_spider env w1)) = [] ∧
  res_world (run_spider env w1) = w1.
Proof.
  intros Hiter Hdepth w1.
  assert (Hroot : root_site (self w1) ∈ visited w1).
  { destruct (run_spider_frame_rel env w) as (Hr & _). fold w1 in Hr. rewrite Hr.
    by apply root_visited_after_run. }
  rewrite (run_of_visited_root env w1 Hiter Hroot), finish_run.
  split; [done |].
  destruct (indexing_on (self w1)); destruct (indexing_definitions_obj (self w1)); done.
Qed.

Lemma second_run_fetches_nothing_witness :
  iter_ok Scenario.example_env ∧
  0 < pen_depth (self Scenario.indexed) ∧
  let w1 := res_world (run_spider Scenario.example_env Scenario.indexed) in
  run_spider Scenario.example_env w1 = finish Scenario.example_env w1 ∧
  fetched (res_events (run_spider Scenario.example_env w1)) = [] ∧
  res_world (run_spider Scenario.example_env w1) = w1.
Proof.
  assert (H1 : iter_ok Scenario.example_env) by (intros X; reflexivity).
  assert (H2 : 0 < pen_depth (self Scenario.indexed)) by (vm_compute; reflexivity).
  refine (conj H1 (conj H2 _)).
  exact (second_run_fetches_nothing Scenario.example_env Scenario.indexed H1 H2).
Defined.

(** X12: the engine is disposed of exactly when the run returns normally,
    and then once, as the last event; an aborted run never releases it. *)
Theorem engine_disposed_iff_run_completes (env : Env) (w : World) :
  let r := run_spider env w in
  (EvDispose ∈ res_events r ↔ res_val r = Ok tt) ∧
  (res_val r = Ok tt → ∃ pre, res_events r = pre ++ [EvDispose] ∧ EvDispose ∉ pre).
Proof.
  intros r. subst r. rewrite run_spider_unfold.
  pose proof (holds_run_depths no_dispose_rel env (Z.to_nat (pen_depth (self w))) w
                (process_parent_no_dispose env)) as Hloop.
  unfold holds, no_dispose_rel in Hloop.
  destruct (run_depths env _ w) as [[children|e] w' evs] eqn:Hrun; simpl in Hloop.
  - erewrite bind_Ok by exact Hrun. rewrite finish_run. unfold after.
    destruct (indexing_on (self w')); destruct (indexing_definitions_obj (self w'));
      simpl; rewrite ?app_nil_r.
    + split; [split; [done | intros _; set_solver] |]. intros _.
      eexists (evs ++ [_]). rewrite <-app_assoc. split; [done |]. set_solver.
    + split; [split; [done | done] | done].
    + split; [split; [done | intros _; set_solver] |]. intros _.
      exists evs. done.
    + split; [split; [done | done] | done].
  - erewrite bind_Raise by exact Hrun. simpl. split; [split; [done | done] | done].
Qed.

(** ** Edge batches and exceptions *)

Lemma edge_rows_get_upload p name schema rows :
  edge_rows [EvGet p; EvToSql name schema (ParentChildDF rows)] = rows.
Proof. unfold edge_rows. simpl. apply app_nil_r. Qed.

(** X13: the Edge batch uploaded for a parent pairs it with every child
    accumulated so far in the depth, the children found on earlier parents'
    pages included, not only with the links of its own page. *)
Theorem edge_batch_is_cumulative (env : Env) (acc : gset string) (p : string) (w : World)
    (r : Response) (kept : gset candidate) (obj : SpiderIndexSQLSetup) :
  iter_ok env →
  p ∉ visited w →
  session_get env p = Some r →
  status_code r = 200 →
  is_sheet p = false →
  clean_webpage_links (filter_word_list (self w)) (get_all_links_from_page env r) = Ok kept →
  indexing_on (self w) = true →
  indexing_definitions_obj (self w) = Some obj →
  ∀ row, row ∈ edge_rows (res_events (process_parent env acc p w)) ↔
         row.1.1 = pen_depth (self w) ∧ row.1.2 = p ∧ (row.2 ∈ acc ∨ Some row.2 ∈ kept).
Proof.
  intros Hiter Hv Hget Hst Hsh Hcl Hon Hobj [[depth parent] child].
  destruct (process_parent_step env acc p w) as
    [?|? ?|r' ? ? ?|r' ? ? ? ?|r' fs e ? ? ? ? ?
     |r' fs kept' ? ? ? ? ? ?|r' fs kept' ? ? ? ? ? ? ?
     |r' fs kept' obj' ? ? ? ? Hcl' ? ?];
    simplify_eq; try congruence.
  assert (kept' = kept) as -> by congruence.
  unfold create_parent_child_dataframe. cbn [res_events]. rewrite edge_rows_get_upload.
  rewrite !elem_of_product, !list_elem_of_singleton, (iter_ok_elem env _ _ Hiter).
  rewrite elem_of_union, elem_of_links_of. simpl. naive_solver.
Qed.

Lemma edge_batch_is_cumulative_witness :
  iter_ok Scenario.example_env ∧
  ("http://example.com" ∉ visited Scenario.indexed) ∧
  session_get Scenario.example_env "http://example.com"
    = Some (Scenario.page 200 "root page") ∧
  status_code (Scenario.page 200 "root page") = 200 ∧
  is_sheet "http://example.com" = false ∧
  clean_webpage_links (filter_word_list (self Scenario.indexed))
    (get_all_links_from_page Scenario.example_env (Scenario.page 200 "root page"))
    = Ok Cases.root_children ∧
  indexing_on (self Scenario.indexed) = true ∧
  indexing_definitions_obj (self Scenario.indexed) = Some Scenario.example_setup ∧
  ∀ row,
    row ∈ edge_rows (res_events (process_parent Scenario.example_env {["/menu"]}
                                   "http://example.com" Scenario.indexed)) ↔
    row.1.1 = pen_depth (self Scenario.indexed) ∧ row.1.2 = "http://example.com" ∧
    (row.2 ∈ ({["/menu"]} : gset string) ∨ Some row.2 ∈ Cases.root_children).
Proof.
  assert (H1 : iter_ok Scenario.example_env) by (intros X; reflexivity).
  assert (H2 : "http://example.com" ∉ visited Scenario.indexed) by by_decide.
  assert (H3 : session_get Scenario.example_env "http://example.com"
               = Some (Scenario.page 200 "root page")) by reflexivity.
  assert (H4 : status_code (Scenario.page 200 "root page") = 200) by reflexivity.
  assert (H5 : is_sheet "http://example.com" = false) by (vm_compute; reflexivity).
  assert (H6 : clean_webpage_links (filter_word_list (self Scenario.indexed))
                 (get_all_links_from_page Scenario.example_env
                    (Scenario.page 200 "root page"))
               = Ok Cases.root_children) by (vm_compute; reflexivity).
  assert (H7 : indexing_on (self Scenario.indexed) = true) by reflexivity.
  assert (H8 : indexing_definitions_obj (self Scenario.indexed)
               = Some Scenario.example_setup) by reflexivity.
  refine (conj H1 (conj H2 (conj H3 (conj H4 (conj H5 (conj H6 (conj H7 (conj H8 _)))))))).
  exact (edge_batch_is_cumulative Scenario.example_env {["/menu"]} "http://example.com"
           Scenario.indexed (Scenario.page 200 "root page") Cases.root_children
           Scenario.example_setup H1 H2 H3 H4 H5 H6 H7 H8).
Defined.



(** ** The directory, and the end of a run *)

Global Instance files_rel_trace : TraceRel files_rel.
Proof.
  split.
  - intros w. by unfold files_rel.
  - intros w1 e1 w2 e2 w3 (Hp1 & Hd1 & Ho1) (Hp2 & Hd2 & Ho2). split_and!.
    + congruence.
    + intros path ?. by apply Hd2, Hd1.
    + intros path Hout. rewrite Ho2 by (by rewrite Hp1). by apply Ho1.
Qed.

Lemma bind_world_Ok {A B} (m : M A) (k : A → M B) w a w' evs :
  m w = mkRes (Ok a) w' evs → res_world (bind m k w) = res_world (k a w').
Proof. intros Hm. by rewrite (bind_Ok _ _ _ _ _ _ Hm). Qed.

(** The world after one iteration: the link visited, and at most one file
    of the save directory written. *)
Lemma process_parent_world env acc p w :
  res_world (process_parent env acc p w) = w ∨
  ∃ fs, res_world (process_parent env acc p w) = mkWorld (visit p (self w)) fs ∧
        (fs = files w ∨
         ∃ name ext content,
           fs = <[raw_files_save_path (self w) +:+ name +:+ ext := content]> (files w)).
Proof.
  unfold process_parent. rewrite bind_get_self.
  case_decide as Hv; [by left |]. right.
  unfold unique_links_add. rewrite bind_modify.
  destruct (session_get env p) as [r|] eqn:Hget.
  2: { erewrite bind_Raise by (rewrite get_request_with_delay_run, Hget; reflexivity).
       eexists. split; [reflexivity | by left]. }
  erewrite bind_world_Ok by (rewrite get_request_with_delay_run, Hget; reflexivity).
  case_decide as Hst; [eexists; split; [reflexivity | by left] |].
  assert (Hext : ∀ w1, res_world (extract_and_index env acc p r w1) = w1).
  { intros w1. rewrite extract_and_index_run.
    destruct (clean_webpage_links _ _); [|done].
    destruct (indexing_on _); [|done]. by destruct (indexing_definitions_obj _). }
  destruct (PyStr.endswith (PyStr.lower p) "pdf").
  { erewrite bind_world_Ok by (by apply save_webpage_as_pdf_files).
    rewrite Hext. eexists. split; [reflexivity |]. right. by eexists _, _, _. }
  destruct (PyStr.endswith (PyStr.lower p) "xlsx");
    [eexists; split; [reflexivity | by left] |].
  destruct (PyStr.endswith (PyStr.lower p) "xls");
    [eexists; split; [reflexivity | by left] |].
  erewrite bind_world_Ok by (by apply save_webpage_as_text_files).
  rewrite Hext. eexists. split; [reflexivity |]. right. by eexists _, _, _.
Qed.

Lemma startswith_prefix (s t : string) : PyStr.startswith (s +:+ t) s = true.
Proof. apply startswith_app. by exists t. Qed.

Lemma process_parent_files_rel env acc p w : holds files_rel (process_parent env acc p) w.
Proof.
  unfold holds.
  destruct (process_parent_world env acc p w) as [->|(fs & -> & Hfs)];
    [by unfold files_rel |].
  destruct Hfs as [->|(name & ext & content & ->)]; [by unfold files_rel |].
  unfold files_rel. simpl. split_and!; [done | |].
  - intros path Hsome. destruct (decide (raw_files_save_path (self w) +:+ name +:+ ext = path))
      as [->|Hne]; [by rewrite lookup_insert_eq | by rewrite lookup_insert_ne].
  - intros path Hout. apply lookup_insert_ne. intros <-.
    by rewrite startswith_prefix in Hout.
Qed.

Lemma finish_files_rel env w : holds files_rel (finish env) w.
Proof.
  unfold holds. rewrite finish_run.
  destruct (indexing_on (self w)); destruct (indexing_definitions_obj (self w)); simpl;
    by unfold files_rel.
Qed.

(** X15: a run removes no file, and leaves every file whose path does not
    begin with [raw_files_save_path] as it was. *)
Theorem run_writes_only_under_save_path (env : Env) (w : World) :
  let w' := res_world (run_spider env w) in
  (∀ path, is_Some (files w !! path) → is_Some (files w' !! path)) ∧
  (∀ path, PyStr.startswith path (raw_files_save_path (self w)) = false →
           files w' !! path = files w !! path).
Proof.
  intros w'.
  destruct (holds_run_spider files_rel env w (process_parent_files_rel env)
              (finish_files_rel env)) as (_ & ? & ?).
  done.
Qed.

(** X16: a run with indexing on that returns normally ends with the upload
    of the unique-links frame of the final [unique_links_set] to the
    unique-links table, followed by the disposal of the engine. *)
Theorem completed_run_uploads_unique_links_last (env : Env) (w : World) :
  res_val (run_spider env w) = Ok tt →
  indexing_on (self w) = true →
  ∃ pre obj,
    indexing_definitions_obj (self w) = Some obj ∧
    res_events (run_spider env w) =
      pre ++ [EvToSql (unique_links_table_name obj) (unique_links_schema obj)
                (create_unique_links_df env (self (res_world (run_spider env w))));
              EvDispose].
Proof.
  rewrite run_spider_unfold. intros Hrun Hon.
  pose proof (holds_run_depths frame_rel env (Z.to_nat (pen_depth (self w))) w
                (process_parent_frame_rel env)) as (_&_&_&Hobj&Hon'&_).
  destruct (run_depths env (Z.to_nat (pen_depth (self w))) w)
    as [[children|e'] w' evs] eqn:Hloop; simpl in Hobj, Hon'.
  - erewrite bind_Ok in Hrun |- * by exact Hloop.
    rewrite finish_run in Hrun |- *. rewrite Hon', Hon, Hobj in Hrun |- *.
    destruct (indexing_definitions_obj (self w)) as [obj|]; [|done].
    exists evs, obj. done.
  - erewrite bind_Raise in Hrun by exact Hloop. done.
Qed.

Lemma completed_run_uploads_unique_links_last_witness :
  res_val (run_spider Scenario.example_env Scenario.indexed) = Ok tt ∧
  indexing_on (self Scenario.indexed) = true ∧
  ∃ pre obj,
    indexing_definitions_obj (self Scenario.indexed) = Some obj ∧
    res_events (run_spider Scenario.example_env Scenario.indexed) =
      pre ++ [EvToSql (unique_links_table_name obj) (unique_links_schema obj)
                (create_unique_links_df Scenario.example_env
                   (self (res_world (run_spider Scenario.example_env Scenario.indexed))));
              EvDispose].
Proof.
  assert (H1 : res_val (run_spider Scenario.example_env Scenario.indexed) = Ok tt)
    by (vm_compute; reflexivity).
  assert (H2 : indexing_on (self Scenario.indexed) = true) by reflexivity.
  refine (conj H1 (conj H2 _)).
  exact (completed_run_uploads_unique_links_last Scenario.example_env Scenario.indexed
           H1 H2).
Defined.

(** ** What a run fetches *)

Lemma reached_more env sp evs more link :
  reached env sp evs link → reached env sp (evs ++ more) link.
Proof.
  intros [?|(p & Hp & Hch)]; [by left | right]. exists p.
  rewrite fetched_app. set_solver.
Qed.

Lemma reached_less env sp pre evs link :
  reached env sp evs link → reached env sp (pre ++ evs) link.
Proof.
  intros [?|(p & Hp & Hch)]; [by left | right]. exists p.
  rewrite fetched_app. set_solver.
Qed.

(** One iteration fetches its parent or nothing. *)
Lemma process_parent_fetched env acc p w link :
  link ∈ fetched (res_events (process_parent env acc p w)) → link = p.
Proof.
  destruct (process_parent_step env acc p w); simpl; set_solver.
Qed.

(** The inner loop fetches parents only, and collects children of the
    parents it fetched. *)
Lemma inner_loop_reached env ps :
  ∀ acc w,
    let r := foldM (process_parent env) acc ps w in
    (∀ link, link ∈ fetched (res_events r) → link ∈ ps) ∧
    (∀ children, res_val r = Ok children →
       ∀ c, c ∈ children →
            c ∈ acc ∨ ∃ p, p ∈ fetched (res_events r) ∧ child_of env (self w) p c).
Proof.
  induction ps as [|p ps IH]; intros acc w; simpl.
  - split; [by intros ? ?%elem_of_nil |]. intros children ? c ?. simplify_eq. by left.
  - pose proof (process_parent_frame_rel env acc p w) as (_&_&_&_&_&Hwords&_).
    destruct (process_parent env acc p w) as [[acc1|e1] w1 e1'] eqn:Hstep.
    + erewrite bind_Ok by exact Hstep. unfold after. cbn [res_events res_val].
      destruct (IH acc1 w1) as [Hf Hc]. simpl in Hwords. split.
      * intros link. rewrite fetched_app, elem_of_app. intros [Hl|Hl].
        -- apply elem_of_cons; left.
           pose proof (process_parent_fetched env acc p w link) as Hp.
           rewrite Hstep in Hp. by apply Hp.
        -- by apply list_elem_of_further, Hf.
      * intros children Hok c Hin.
        destruct (Hc children Hok c Hin) as [Hacc1|(q & Hq & Hch)].
        -- pose proof (process_parent_children env acc p w acc1) as Hch.
           rewrite Hstep in Hch. destruct (Hch eq_refl) as [Hiff _].
           apply Hiff in Hacc1 as [?|[Hnv Hchild]]; [by left | right].
           exists p. split; [|done]. rewrite fetched_app.
           destruct (process_parent_unvisited env acc p w Hnv) as [Hfp _].
           rewrite Hstep in Hfp. cbn [res_events] in Hfp. rewrite Hfp. set_solver.
        -- right. exists q. split; [rewrite fetched_app; set_solver |].
           by rewrite child_of_filter in Hch by done.
    + erewrite bind_Raise by exact Hstep. cbn [res_events res_val]. split; [|done].
      intros link Hl. apply elem_of_cons; left.
      pose proof (process_parent_fetched env acc p w link) as Hp.
      rewrite Hstep in Hp. by apply Hp.
Qed.

Lemma reached_config env sp sp' evs link :
  root_site sp' = root_site sp → filter_word_list sp' = filter_word_list sp →
  reached env sp' evs link ↔ reached env sp evs link.
Proof.
  intros Hroot Hwords. unfold reached. rewrite Hroot.
  by setoid_rewrite (child_of_filter env sp sp' _ _ Hwords).
Qed.

(** The outer loop fetches the root and children reached before. *)
Lemma outer_loop_reached env sp0 ds :
  iter_ok env →
  ∀ prev w pre,
    root_site (self w) = root_site sp0 →
    filter_word_list (self w) = filter_word_list sp0 →
    (∀ c, c ∈ prev → reached env sp0 pre c) →
    (∀ l, l ∈ fetched pre → reached env sp0 pre l) →
    ∀ l, l ∈ fetched (pre ++ res_events (foldM (run_depth env) prev ds w)) →
         reached env sp0 (pre ++ res_events (foldM (run_depth env) prev ds w)) l.
Proof.
  intros Hiter. induction ds as [|d ds IH]; intros prev w pre Hroot Hwords Hprev Hpre l.
  - simpl. rewrite app_nil_r. apply Hpre.
  - simpl.
    pose proof (holds_run_depth frame_rel env prev d w (process_parent_frame_rel env))
      as (Hroot1&_&_&_&_&Hwords1&_).
    assert (Hparents : ∀ p, p ∈ parent_level_links (self w) d prev → reached env sp0 pre p).
    { intros p. unfold parent_level_links. case_decide; [|apply Hprev].
      intros ->%elem_of_singleton. left. done. }
    assert (Hdepth : run_depth env prev d w =
              foldM (process_parent env) ∅
                (set_iter env (parent_level_links (self w) d prev)) w).
    { unfold run_depth. by rewrite bind_get_self. }
    destruct (inner_loop_reached env
                (set_iter env (parent_level_links (self w) d prev)) ∅ w) as [Hf Hc].
    rewrite <-Hdepth in Hf, Hc.
    assert (Hpre1 : ∀ l, l ∈ fetched (pre ++ res_events (run_depth env prev d w)) →
              reached env sp0 (pre ++ res_events (run_depth env prev d w)) l).
    { intros l'. rewrite fetched_app, elem_of_app. intros [Hl|Hl].
      - by apply reached_more, Hpre.
      - apply reached_more, Hparents. apply Hf in Hl. by rewrite iter_ok_elem in Hl. }
    destruct (run_depth env prev d w) as [[children|e1] w1 e1'] eqn:Hrun.
    + erewrite bind_Ok by exact Hrun. unfold after.
      cbn [res_events res_world res_val] in *.
      rewrite app_assoc. apply IH.
      * by rewrite Hroot1.
      * by rewrite Hwords1.
      * intros c Hin. destruct (Hc children eq_refl c Hin) as [?|(p & Hp & Hch)];
          [set_solver |].
        right. exists p. split; [rewrite fetched_app; set_solver |].
        by rewrite child_of_filter in Hch by done.
      * done.
    + erewrite bind_Raise by exact Hrun. cbn [res_events] in *. apply Hpre1.
Qed.

Lemma finish_fetched env w : fetched (res_events (finish env w)) = [].
Proof.
  rewrite finish_run.
  by destruct (indexing_on (self w)); destruct (indexing_definitions_obj (self w)).
Qed.

(** X17: every link a run fetches is the root site or a link the filter
    kept on a page fetched in the same run: a link the filter drops
    everywhere is never requested. *)
Theorem only_root_and_filtered_children_fetched (env : Env) (w : World) (link : string) :
  iter_ok env →
  link ∈ fetched (res_events (run_spider env w)) →
  link = root_site (self w) ∨
  ∃ p, p ∈ fetched (res_events (run_spider env w)) ∧ child_of env (self w) p link.
Proof.
  intros Hiter. rewrite run_spider_unfold.
  pose proof (outer_loop_reached env (self w) (seq 0 (Z.to_nat (pen_depth (self w)))) Hiter
                ∅ w [] eq_refl eq_refl) as Hloop.
  simpl in Hloop. fold (run_depths env (Z.to_nat (pen_depth (self w)))) in Hloop.
  assert (Hsame : fetched (res_events
             (bind (run_depths env (Z.to_nat (pen_depth (self w)))) (λ _, finish env) w))
           = fetched (res_events (run_depths env (Z.to_nat (pen_depth (self w))) w))).
  { unfold bind. destruct (res_val (run_depths env _ w)); [|done].
    unfold after. cbn [res_events]. by rewrite fetched_app, finish_fetched, app_nil_r. }
  rewrite Hsame. intros Hin. apply Hloop in Hin; [done | set_solver | set_solver].
Qed.

Lemma only_root_and_filtered_children_fetched_witness :
  iter_ok Scenario.example_env ∧
  "/about" ∈ fetched (res_events (run_spider Scenario.example_env Scenario.indexed)) ∧
  ("/about" = root_site (self Scenario.indexed) ∨
   ∃ p, p ∈ fetched (res_events (run_spider Scenario.example_env Scenario.indexed)) ∧
        child_of Scenario.example_env (self Scenario.indexed) p "/about").
Proof.
  assert (H1 : iter_ok Scenario.example_env) by (intros X; reflexivity).
  assert (H2 : "/about" ∈ fetched (res_events
                 (run_spider Scenario.example_env Scenario.indexed))) by by_decide.
  refine (conj H1 (conj H2 _)).
  exact (only_root_and_filtered_children_fetched Scenario.example_env Scenario.indexed
           "/about" H1 H2).
Defined.

(** ** The superseded spider *)

(** The loop emits what its iterations emit. *)
Lemma for_each_events {B} (P : Event → Prop)
    (body : gset string → gset string → B → Superseded.Res (gset string)) (xs : list B) :
  (∀ seen acc x, x ∈ xs → Forall P (Superseded.res_events (body seen acc x))) →
  ∀ seen acc, Forall P (Superseded.res_events (Superseded.for_each body seen acc xs)).
Proof.
  induction xs as [|x xs IH]; intros Hbody seen acc; simpl; [constructor |].
  assert (Hx : Forall P (Superseded.res_events (body seen acc x)))
    by apply Hbody, list_elem_of_here.
  destruct (Superseded.res_val (body seen acc x)); simpl; [|done].
  apply Forall_app. split; [done |]. apply IH.
  intros. by apply Hbody, list_elem_of_further.
Qed.

Lemma edge_rows_Forall (P : Z → Prop) evs :
  Forall (λ e, ∀ row, row ∈ edge_rows [e] → P row.1.1) evs →
  ∀ row, row ∈ edge_rows evs → P row.1.1.
Proof.
  induction 1 as [|e evs He _ IH]; intros row; [by intros ?%elem_of_nil |].
  change (e :: evs) with ([e] ++ evs). rewrite edge_rows_app, elem_of_app.
  intros [?|?]; [by apply He | by apply IH].
Qed.

Lemma superseded_process_parent_rows env words d seen acc p :
  Forall (rows_at (Z.of_nat d))
    (Superseded.res_events (Superseded.process_parent env words d seen acc p)).
Proof.
  unfold Superseded.process_parent. case_decide; [constructor |].
  destruct (session_get env p) as [r|]; simpl.
  2: { repeat constructor. by intros row ?%elem_of_nil. }
  case_decide; simpl; [repeat constructor; by intros row ?%elem_of_nil |].
  destruct (clean_webpage_links _ _); simpl.
  - repeat constructor; [by intros row ?%elem_of_nil |].
    intros row. unfold edge_rows, Superseded.create_parent_child_dataframe. simpl.
    rewrite app_nil_r. by intros [? _]%elem_of_product3.
  - repeat constructor. by intros row ?%elem_of_nil.
Qed.

(** X18: in the superseded spider every Edge row uploaded during the
    iteration for depth [d] carries [d] as its depth. *)
Theorem superseded_edges_record_fetch_depth (env : Env) (words : list string)
    (root : string) (seen prev : gset string) (d : nat) (row : Z * string * string) :
  row ∈ edge_rows (Superseded.res_events (Superseded.run_depth env words root seen prev d)) →
  row.1.1 = Z.of_nat d.
Proof.
  apply (edge_rows_Forall (λ z, z = Z.of_nat d)).
  unfold Superseded.run_depth. apply for_each_events.
  intros. apply superseded_process_parent_rows.
Qed.

Lemma superseded_edges_record_fetch_depth_witness :
  (0, "http://example.com", "/about")
    ∈ edge_rows (Superseded.res_events
        (Superseded.run_depth Scenario.example_env Superseded.get_filter_word_list
           "http://example.com" ∅ ∅ 0)) ∧
  (0, "http://example.com", "/about").1.1 = Z.of_nat 0.
Proof.
  assert (H : (0, "http://example.com", "/about")
                ∈ edge_rows (Superseded.res_events
                    (Superseded.run_depth Scenario.example_env
                       Superseded.get_filter_word_list "http://example.com" ∅ ∅ 0)))
    by by_decide.
  refine (conj H _).
  exact (superseded_edges_record_fetch_depth Scenario.example_env
           Superseded.get_filter_word_list "http://example.com" ∅ ∅ 0
           (0, "http://example.com", "/about") H).
Defined.

(** ** The indexing set-up *)

Lemma foldl_insert_lookup (f : string * string → string) (l : list (string * string)) :
  NoDup l.*1 →
  ∀ (obj : gmap string string) k,
    foldl (λ obj pd, <[pd.1 := f pd]> obj) obj l !! k =
      match list_find (λ pd, pd.1 = k) l with
      | Some (_, pd) => Some (f pd)
      | None => obj !! k
      end.
Proof.
  induction l as [|pd l IH]; intros Hnd obj k; simpl; [done |].
  apply NoDup_cons in Hnd as [Hnotin Hnd]. rewrite IH by done.
  case_decide as Hk; simpl.
  - subst k. destruct (list_find (λ pd0, pd0.1 = pd.1) l) as [[i pd']|] eqn:Hfind; simpl.
    + apply list_find_Some in Hfind as (Hi & Heq & _). destruct Hnotin.
      rewrite <-Heq. apply list_elem_of_fmap. exists pd'. split; [done |].
      by eapply list_elem_of_lookup_2.
    + apply lookup_insert_eq.
  - destruct (list_find _ l) as [[i pd']|]; simpl; [done |].
    by apply lookup_insert_ne.
Qed.

Lemma set_properties_lookup (kwargs obj : gmap string string) (name : string) :
  Setup.set_properties kwargs obj !! name =
    match list_find (λ pd, pd.1 = name) Setup.property_defaults with
    | Some (_, (_, default_value)) => Some (default default_value (kwargs !! name))
    | None => obj !! name
    end.
Proof.
  unfold Setup.set_properties.
  rewrite (foldl_insert_lookup (λ pd, default pd.2 (kwargs !! pd.1))).
  - destruct (list_find _ _) as [[i [prop d]]|] eqn:Hfind; [|done].
    apply list_find_Some in Hfind as (_ & Heq & _). simpl in *. by subst.
  - apply (bool_decide_unpack _). vm_compute. exact I.
Qed.

(** X19: the loop of [SpiderIndexSQLSetup.__init__] binds each of the ten
    properties to the keyword argument of that name when given and to its
    default otherwise, and binds no other name. *)
Theorem set_properties_binds_each_property (kwargs : gmap string string) (name : string) :
  (∀ d, (name, d) ∈ Setup.property_defaults →
        Setup.set_properties kwargs ∅ !! name = Some (default d (kwargs !! name))) ∧
  (name ∉ Setup.property_defaults.*1 → Setup.set_properties kwargs ∅ !! name = None).
Proof.
  rewrite set_properties_lookup. split.
  - intros d Hin.
    destruct (list_find _ _) as [[i [prop d']]|] eqn:Hfind.
    + apply list_find_Some in Hfind as (Hi & Heq & _). simpl in Heq. subst prop.
      assert (d' = d) as ->; [|done].
      assert (Hnd : NoDup Setup.property_defaults.*1)
        by (apply (bool_decide_unpack _); vm_compute; exact I).
      apply list_elem_of_lookup in Hin as [j Hj].
      assert (i = j) as ->; [|congruence].
      eapply NoDup_lookup; [exact Hnd | |]; rewrite list_lookup_fmap.
      * by rewrite Hi.
      * by rewrite Hj.
    + apply list_find_None in Hfind. rewrite Forall_forall in Hfind.
      by destruct (Hfind (name, d) Hin).
  - intros Hnot. destruct (list_find _ _) as [[i [prop d']]|] eqn:Hfind; [|done].
    apply list_find_Some in Hfind as (Hi & Heq & _). simpl in Heq. subst prop.
    destruct Hnot. apply list_elem_of_fmap. exists (name, d'). split; [done |].
    by eapply list_elem_of_lookup_2.
Qed.

(** X20: on an instance set up without a [sql_engine_str] argument,
    [bind_sql_engine] reads six bound attributes and builds the URL that
    [create_postgresql_engine] builds for the same values, with twelve blanks
    inserted before the "@". *)
Theorem bind_sql_engine_url_has_blanks (kwargs : gmap string string) :
  kwargs !! "sql_engine_str" = None →
  let get name d := default d (kwargs !! name) in
  let pre := "postgresql+psycopg2://" +:+ get "user" "postgres" +:+ ":" +:+
             get "password" "postgres" in
  let post := "@" +:+ get "host" "localhost" +:+ ":" +:+ get "port" "5432" +:+ "/" +:+
              get "database" "web_spider_data" in
  Setup.create_postgresql_engine_url (get "host" "localhost")
    (get "database" "web_spider_data") (get "user" "postgres")
    (get "password" "postgres") (get "port" "5432") = pre +:+ post ∧
  Setup.bind_sql_engine_url (Setup.set_properties kwargs ∅)
    = Ok (pre +:+ "            " +:+ post).
Proof.
  intros Hengine get pre post. split.
  - unfold Setup.create_postgresql_engine_url, pre, post.
    by rewrite !string_app_assoc.
  - unfold Setup.bind_sql_engine_url, Setup.getattr.
    rewrite !set_properties_lookup. simpl. rewrite Hengine. simpl.
    f_equal. unfold pre, post, get. by rewrite !string_app_assoc.
Qed.

Lemma bind_sql_engine_url_has_blanks_witness :
  ({["host" := "db.internal"]} : gmap string string) !! "sql_engine_str" = None ∧
  Setup.create_postgresql_engine_url "db.internal" "web_spider_data" "postgres"
    "postgres" "5432"
    = ("postgresql+psycopg2://" +:+ "postgres" +:+ ":" +:+ "postgres") +:+
      ("@" +:+ "db.internal" +:+ ":" +:+ "5432" +:+ "/" +:+ "web_spider_data") ∧
  Setup.bind_sql_engine_url (Setup.set_properties {["host" := "db.internal"]} ∅)
    = Ok (("postgresql+psycopg2://" +:+ "postgres" +:+ ":" +:+ "postgres") +:+
          "            " +:+
          ("@" +:+ "db.internal" +:+ ":" +:+ "5432" +:+ "/" +:+ "web_spider_data")).
Proof.
  assert (H : ({["host" := "db.internal"]} : gmap string string) !! "sql_engine_str" = None)
    by (vm_compute; reflexivity).
  refine (conj H _).
  exact (bind_sql_engine_url_has_blanks {["host" := "db.internal"]} H).
Defined.
